(** * avient-com-documentation: the crawl-and-download pipeline of [main.go]

    A shallow embedding of the Go program [main.go] and the properties its
    specification states about it.

    Go strings are byte sequences; they are modelled by [string] (a list of
    8-bit [ascii] values).  The functions of the Go standard library the
    program calls ([strings], [path], [net/url], [regexp] for the one
    compiled pattern, [unicode/utf8]) are modelled in the modules [GoStrings],
    [GoUtf8], [GoPath], [GoRegexp] and [GoUrl], following the library's sources
    (Go 1.21, the first release with the [slices] package the program
    imports).  The program's own functions follow, under their own names. *)

From Stdlib Require Import ZArith Lia List Ascii String Bool.
From stdpp Require Import base gmap strings list pretty.

Local Open Scope string_scope.
Local Open Scope list_scope.

(** ** Bytes *)

Definition byte_in (lo hi c : ascii) : bool :=
  (nat_of_ascii lo <=? nat_of_ascii c)%nat && (nat_of_ascii c <=? nat_of_ascii hi)%nat.

Definition is_lower (c : ascii) : bool := byte_in "a" "z" c.
Definition is_upper (c : ascii) : bool := byte_in "A" "Z" c.
Definition is_digit (c : ascii) : bool := byte_in "0" "9" c.
Definition is_alpha (c : ascii) : bool := is_lower c || is_upper c.

(** [c < utf8.RuneSelf]: the byte is an ASCII character. *)
Definition is_ascii (c : ascii) : bool := (nat_of_ascii c <? 128)%nat.

Fixpoint inb (c : ascii) (set : string) : bool :=
  match set with
  | EmptyString => false
  | String d set' => Ascii.eqb c d || inb c set'
  end.

(** ** Package [strings] *)

Module GoStrings.

(** [s[n:]] *)
Fixpoint drop (n : nat) (s : string) : string :=
  match n, s with
  | O, _ => s
  | S _, EmptyString => EmptyString
  | S n', String _ s' => drop n' s'
  end.

(** [s[:n]] *)
Fixpoint take (n : nat) (s : string) : string :=
  match n, s with
  | O, _ => EmptyString
  | S _, EmptyString => EmptyString
  | S n', String c s' => String c (take n' s')
  end.

Definition HasPrefix (s prefix : string) : bool := String.prefix prefix s.

Definition HasSuffix (s suffix : string) : bool :=
  (String.length suffix <=? String.length s)%nat
  && String.eqb (drop (String.length s - String.length suffix) s) suffix.

(** [strings.Index]; [None] stands for the result [-1]. *)
Fixpoint Index (s substr : string) : option nat :=
  if String.prefix substr s then Some O
  else match s with
       | EmptyString => None
       | String _ s' => option_map S (Index s' substr)
       end.

(** [strings.LastIndex]; [None] stands for the result [-1]. *)
Fixpoint LastIndex (s substr : string) : option nat :=
  match s with
  | EmptyString => if String.prefix substr s then Some O else None
  | String _ s' =>
      match LastIndex s' substr with
      | Some i => Some (S i)
      | None => if String.prefix substr s then Some O else None
      end
  end.

Definition Contains (s substr : string) : bool :=
  match Index s substr with Some _ => true | None => false end.

(** [strings.Cut]: [(before, after, found)]. *)
Definition Cut (s sep : string) : string * string * bool :=
  match Index s sep with
  | Some i => (take i s, drop (i + String.length sep) s, true)
  | None => (s, EmptyString, false)
  end.

(** [strings.Count] for a one-byte [substr], the case the library itself
    separates out ([bytealg.CountString]). *)
Fixpoint CountByte (s : string) (c : ascii) : nat :=
  match s with
  | EmptyString => O
  | String d s' => (if Ascii.eqb d c then 1 else 0) + CountByte s' c
  end.

Definition lower_byte (c : ascii) : ascii :=
  if is_upper c then ascii_of_nat (nat_of_ascii c + 32) else c.

(** [strings.ToLower] on bytes: ['A'..'Z'] are mapped to ['a'..'z'].  This
    is the library's result on every string without a byte [>= 0x80]; on
    other strings the library also maps non-ASCII letters, none of which
    the program's tests on the result can observe (no rune outside ASCII
    has ['.'], ['p'], ['d'] or ['f'] as its lower case). *)
Fixpoint ToLower (s : string) : string :=
  match s with
  | EmptyString => EmptyString
  | String c s' => String (lower_byte c) (ToLower s')
  end.

Fixpoint TrimLeft (s cutset : string) : string :=
  match s with
  | EmptyString => EmptyString
  | String c s' => if inb c cutset then TrimLeft s' cutset else s
  end.

Fixpoint TrimRight (s cutset : string) : string :=
  match s with
  | EmptyString => EmptyString
  | String c s' =>
      match TrimRight s' cutset with
      | EmptyString => if inb c cutset then EmptyString else String c EmptyString
      | t => String c t
      end
  end.

(** [strings.Trim] for a cutset of ASCII bytes: leading and trailing bytes
    that occur in [cutset] are removed. *)
Definition Trim (s cutset : string) : string :=
  TrimLeft (TrimRight s cutset) cutset.

End GoStrings.

(** ** Package [unicode/utf8] *)

Module GoUtf8.

Definition cont (lo hi : ascii) (s : string) : option string :=
  match s with
  | String c s' => if byte_in lo hi c then Some s' else None
  | EmptyString => None
  end.

(** Number of continuation bytes that follow the first byte [c] of the
    encoding at the head of [String c s] ([utf8.DecodeRuneInString]
    returns the width [1 + follow c s]).  Invalid or truncated encodings
    decode to [RuneError] of width 1. *)
Definition follow (c : ascii) (s : string) : nat :=
  let locb := "128"%char in
  let hicb := "191"%char in
  let tail2 lo hi := match cont lo hi s with Some _ => 1 | None => 0 end in
  let tail3 lo hi :=
    match cont lo hi s with
    | Some s1 => match cont locb hicb s1 with Some _ => 2 | None => 0 end
    | None => 0
    end in
  let tail4 lo hi :=
    match cont lo hi s with
    | Some s1 =>
        match cont locb hicb s1 with
        | Some s2 => match cont locb hicb s2 with Some _ => 3 | None => 0 end
        | None => 0
        end
    | None => 0
    end in
  if byte_in "194" "223" c then tail2 locb hicb
  else if Ascii.eqb c "224" then tail3 "160"%char hicb
  else if byte_in "225" "236" c then tail3 locb hicb
  else if Ascii.eqb c "237" then tail3 locb "159"%char
  else if byte_in "238" "239" c then tail3 locb hicb
  else if Ascii.eqb c "240" then tail4 "144"%char hicb
  else if byte_in "241" "243" c then tail4 locb hicb
  else if Ascii.eqb c "244" then tail4 locb "143"%char
  else 0.

End GoUtf8.

(** ** Package [path] *)

Module GoPath.

(** Strip trailing slashes. *)
Definition stripTrailingSlashes (p : string) : string := GoStrings.TrimRight p "/".

(** [path.Base] *)
Definition Base (p : string) : string :=
  if String.eqb p EmptyString then "."
  else
    let p1 := stripTrailingSlashes p in
    let p2 := match GoStrings.LastIndex p1 "/" with
              | Some i => GoStrings.drop (i + 1) p1
              | None => p1
              end in
    if String.eqb p2 EmptyString then "/" else p2.

End GoPath.

(** ** The compiled pattern [[^\w\-.]] of package [regexp] *)

Module GoRegexp.

(** [\w] is ASCII-only in Go's syntax: [[0-9A-Za-z_]]. *)
Definition is_word (c : ascii) : bool :=
  is_digit c || is_alpha c || Ascii.eqb c "_".

(** The bytes the class [[^\w\-.]] does not match. *)
Definition allowed (c : ascii) : bool :=
  is_word c || Ascii.eqb c "-" || Ascii.eqb c ".".

(** [regexFinder.ReplaceAllString(s, "_")] for [regexFinder =
    regexp.MustCompile(`[^\w\-.]`)]: the input is read rune by rune; every
    rune outside the class (all of them non-ASCII or one of the ASCII
    bytes not [allowed]) is one match and is replaced by one underscore.
    [skip] counts the continuation bytes of the rune being replaced. *)
Fixpoint replace (skip : nat) (s : string) : string :=
  match s with
  | EmptyString => EmptyString
  | String c s' =>
      match skip with
      | S k => replace k s'
      | O =>
          if is_ascii c then
            String (if allowed c then c else "_"%char) (replace O s')
          else String "_" (replace (GoUtf8.follow c s') s')
      end
  end.

Definition ReplaceAllString (s : string) : string := replace O s.

End GoRegexp.

(** ** Package [net/url] *)

Module GoUrl.

Inductive encoding : Set :=
| encodePath | encodePathSegment | encodeHost | encodeZone
| encodeUserPassword | encodeQueryComponent | encodeFragment.

Definition encoding_eqb (a b : encoding) : bool :=
  match a, b with
  | encodePath, encodePath | encodePathSegment, encodePathSegment
  | encodeHost, encodeHost | encodeZone, encodeZone
  | encodeUserPassword, encodeUserPassword
  | encodeQueryComponent, encodeQueryComponent
  | encodeFragment, encodeFragment => true
  | _, _ => false
  end.

(** The fields of [url.URL] that parsing fills and the program or the
    properties read; [RawPath], [RawFragment], [ForceQuery] and [OmitHost]
    only steer re-encoding and are left out. *)
Record URL : Set := mkURL {
  Scheme : string;
  Opaque : string;
  User : option (string * option string);
  Host : string;
  Path : string;
  RawQuery : string;
  Fragment : string
}.

Definition ishex (c : ascii) : bool :=
  is_digit c || byte_in "a" "f" c || byte_in "A" "F" c.

Definition unhex (c : ascii) : nat :=
  if is_digit c then nat_of_ascii c - nat_of_ascii "0"
  else if byte_in "a" "f" c then nat_of_ascii c - nat_of_ascii "a" + 10
  else if byte_in "A" "F" c then nat_of_ascii c - nat_of_ascii "A" + 10
  else 0.

Definition shouldEscape (c : ascii) (mode : encoding) : bool :=
  if is_alpha c || is_digit c then false
  else if (encoding_eqb mode encodeHost || encoding_eqb mode encodeZone)
          && (inb c "!$&'()*+,;=:[]<>" || Ascii.eqb c "034") then false
  else if inb c "-_.~" then false
  else if inb c "$&+,/:;=?@" then
    match mode with
    | encodePath => Ascii.eqb c "?"
    | encodePathSegment => inb c "/;,?"
    | encodeUserPassword => inb c "@/?:"
    | encodeQueryComponent => true
    | encodeFragment => false
    | encodeHost | encodeZone => true
    end
  else if encoding_eqb mode encodeFragment && inb c "!()*" then false
  else true.

(** First loop of [unescape]: every ['%'] starts a well-formed escape that
    the mode admits, and host bytes are valid. *)
Fixpoint unescape_valid (s : string) (mode : encoding) : bool :=
  match s with
  | EmptyString => true
  | String "%" s1 =>
      match s1 with
      | String a (String b s3) =>
          ishex a && ishex b
          && negb (encoding_eqb mode encodeHost && (unhex a <? 8)%nat
                   && negb (Ascii.eqb a "2" && Ascii.eqb b "5"))
          && negb (encoding_eqb mode encodeZone
                   && negb (Ascii.eqb a "2" && Ascii.eqb b "5")
                   && negb (unhex a * 16 + unhex b =? 32)%nat
                   && shouldEscape (ascii_of_nat (unhex a * 16 + unhex b)) encodeHost)
          && unescape_valid s3 mode
      | _ => false
      end
  | String c s' =>
      if Ascii.eqb c "+" then unescape_valid s' mode
      else
        negb ((encoding_eqb mode encodeHost || encoding_eqb mode encodeZone)
              && is_ascii c && shouldEscape c encodeHost)
        && unescape_valid s' mode
  end.

(** Second loop of [unescape], run on validated input. *)
Fixpoint unescape_build (s : string) (mode : encoding) : string :=
  match s with
  | EmptyString => EmptyString
  | String "%" (String a (String b s3)) =>
      String (ascii_of_nat (unhex a * 16 + unhex b)) (unescape_build s3 mode)
  | String c s' =>
      String (if Ascii.eqb c "+" && encoding_eqb mode encodeQueryComponent
              then " "%char else c)
             (unescape_build s' mode)
  end.

(** [unescape]; [None] is the library's error result. *)
Definition unescape (s : string) (mode : encoding) : option string :=
  if unescape_valid s mode then Some (unescape_build s mode) else None.

Definition QueryUnescape (s : string) : option string :=
  unescape s encodeQueryComponent.

Fixpoint stringContainsCTLByte (s : string) : bool :=
  match s with
  | EmptyString => false
  | String c s' =>
      (nat_of_ascii c <? 32)%nat || Ascii.eqb c "127" || stringContainsCTLByte s'
  end.

(** The loop of [getScheme] at index [i], with [s = rawURL[i:]]; [None] is
    the error "missing protocol scheme". *)
Fixpoint getScheme_from (i : nat) (rawURL s : string) : option (string * string) :=
  match s with
  | EmptyString => Some (EmptyString, rawURL)
  | String c s' =>
      if is_alpha c then getScheme_from (S i) rawURL s'
      else if is_digit c || inb c "+-." then
        if (i =? 0)%nat then Some (EmptyString, rawURL)
        else getScheme_from (S i) rawURL s'
      else if Ascii.eqb c ":" then
        if (i =? 0)%nat then None else Some (GoStrings.take i rawURL, s')
      else Some (EmptyString, rawURL)
  end.

Definition getScheme (rawURL : string) : option (string * string) :=
  getScheme_from 0 rawURL rawURL.

Fixpoint all_digits (s : string) : bool :=
  match s with
  | EmptyString => true
  | String c s' => is_digit c && all_digits s'
  end.

Definition validOptionalPort (port : string) : bool :=
  match port with
  | EmptyString => true
  | String c digits => Ascii.eqb c ":" && all_digits digits
  end.

Fixpoint validUserinfo (s : string) : bool :=
  match s with
  | EmptyString => true
  | String c s' =>
      (is_alpha c || is_digit c || inb c "-._:~!$&'()*+,;=%@") && validUserinfo s'
  end.

Definition parseHost (host : string) : option string :=
  if GoStrings.HasPrefix host "[" then
    match GoStrings.LastIndex host "]" with
    | None => None
    | Some i =>
        if negb (validOptionalPort (GoStrings.drop (i + 1) host)) then None
        else
          match GoStrings.Index (GoStrings.take i host) "%25" with
          | Some zone =>
              match unescape (GoStrings.take zone host) encodeHost,
                    unescape (GoStrings.drop zone (GoStrings.take i host)) encodeZone,
                    unescape (GoStrings.drop i host) encodeHost with
              | Some host1, Some host2, Some host3 => Some (host1 +:+ host2 +:+ host3)
              | _, _, _ => None
              end
          | None => unescape host encodeHost
          end
    end
  else
    match GoStrings.LastIndex host ":" with
    | Some i =>
        if negb (validOptionalPort (GoStrings.drop i host)) then None
        else unescape host encodeHost
    | None => unescape host encodeHost
    end.

Definition parseAuthority (authority : string)
  : option (option (string * option string) * string) :=
  match GoStrings.LastIndex authority "@" with
  | None =>
      match parseHost authority with
      | Some host => Some (None, host)
      | None => None
      end
  | Some i =>
      match parseHost (GoStrings.drop (i + 1) authority) with
      | None => None
      | Some host =>
          let userinfo := GoStrings.take i authority in
          if negb (validUserinfo userinfo) then None
          else if negb (GoStrings.Contains userinfo ":") then
            match unescape userinfo encodeUserPassword with
            | Some u => Some (Some (u, None), host)
            | None => None
            end
          else
            let '(username, password, _) := GoStrings.Cut userinfo ":" in
            match unescape username encodeUserPassword,
                  unescape password encodeUserPassword with
            | Some u, Some p => Some (Some (u, Some p), host)
            | _, _ => None
            end
      end
  end.

(** [parse(rawURL, viaRequest)]; [None] is any of its errors.  Fields not
    assigned keep the zero value [none]. *)
Definition parse (rawURL : string) (viaRequest : bool) : option URL :=
  let none := EmptyString in
  if stringContainsCTLByte rawURL then None
  else if String.eqb rawURL EmptyString && viaRequest then None
  else if String.eqb rawURL "*" then Some (mkURL none none None none "*" none none)
  else
    match getScheme rawURL with
    | None => None
    | Some (scheme0, rest0) =>
        let scheme := GoStrings.ToLower scheme0 in
        let '(rest, rawQuery) :=
          if GoStrings.HasSuffix rest0 "?" && (GoStrings.CountByte rest0 "?" =? 1)%nat
          then (GoStrings.take (String.length rest0 - 1) rest0, EmptyString)
          else let '(before, after, _) := GoStrings.Cut rest0 "?" in (before, after) in
        if negb (GoStrings.HasPrefix rest "/") && negb (String.eqb scheme EmptyString) then
          Some (mkURL scheme rest None none none rawQuery none)
        else if negb (GoStrings.HasPrefix rest "/") && viaRequest then None
        else if negb (GoStrings.HasPrefix rest "/")
                && GoStrings.Contains (fst (fst (GoStrings.Cut rest "/"))) ":" then None
        else
          let authority_rest :=
            if (negb (String.eqb scheme EmptyString)
                || negb viaRequest && negb (GoStrings.HasPrefix rest "///"))
               && GoStrings.HasPrefix rest "//"
            then
              let authority := GoStrings.drop 2 rest in
              match GoStrings.Index authority "/" with
              | Some i => Some (GoStrings.take i authority, GoStrings.drop i authority)
              | None => Some (authority, EmptyString)
              end
            else None in
          match authority_rest with
          | Some (authority, rest') =>
              match parseAuthority authority with
              | None => None
              | Some (user, host) =>
                  match unescape rest' encodePath with
                  | Some p => Some (mkURL scheme none user host p rawQuery none)
                  | None => None
                  end
              end
          | None =>
              match unescape rest encodePath with
              | Some p => Some (mkURL scheme none None none p rawQuery none)
              | None => None
              end
          end
    end.

(** [url.Parse] *)
Definition Parse (rawURL : string) : option URL :=
  let '(u, frag, _) := GoStrings.Cut rawURL "#" in
  match parse u false with
  | None => None
  | Some url =>
      if String.eqb frag EmptyString then Some url
      else
        match unescape frag encodeFragment with
        | Some f =>
            Some (mkURL (Scheme url) (Opaque url) (User url) (Host url)
                        (Path url) (RawQuery url) f)
        | None => None
        end
  end.

(** [url.ParseRequestURI] *)
Definition ParseRequestURI (rawURL : string) : option URL := parse rawURL true.

End GoUrl.


(** ** Package [path/filepath] (Unix) *)

Module GoFilepath.

(** The path elements between slashes, in order; [cur] collects the
    element being read, in reverse. *)
Fixpoint elements (s : string) (cur : list ascii) : list string :=
  match s with
  | EmptyString => [string_of_list_ascii (rev cur)]
  | String c s' =>
      if Ascii.eqb c "/" then string_of_list_ascii (rev cur) :: elements s' []
      else elements s' (c :: cur)
  end.

(** The element loop of [Clean]: [out] is the stack of elements written so
    far (last first) and [dotdot] the number of leading [..] elements that
    cannot be backtracked over. *)
Fixpoint clean_elements (rooted : bool) (es : list string)
         (out : list string) (dotdot : nat) : list string :=
  match es with
  | [] => rev out
  | e :: es' =>
      if String.eqb e EmptyString || String.eqb e "." then clean_elements rooted es' out dotdot
      else if String.eqb e ".." then
        if (dotdot <? List.length out)%nat then clean_elements rooted es' (tl out) dotdot
        else if negb rooted then clean_elements rooted es' (e :: out) (S (List.length out))
        else clean_elements rooted es' out dotdot
      else clean_elements rooted es' (e :: out) dotdot
  end.

Fixpoint join_elements (es : list string) : string :=
  match es with
  | [] => EmptyString
  | [e] => e
  | e :: es' => e +:+ "/" +:+ join_elements es'
  end.

(** [filepath.Clean] *)
Definition Clean (p : string) : string :=
  if String.eqb p EmptyString then "."
  else
    let rooted := GoStrings.HasPrefix p "/" in
    let out := join_elements (clean_elements rooted (elements p []) [] 0) in
    let r := if rooted then "/" +:+ out else out in
    if String.eqb r EmptyString then "." else r.

(** [filepath.Join] of two elements. *)
Definition Join (a b : string) : string :=
  if negb (String.eqb a EmptyString) then Clean (a +:+ "/" +:+ b)
  else if negb (String.eqb b EmptyString) then Clean b
  else EmptyString.

End GoFilepath.

(** * The program *)

(** ** Log lines

    The program reports through [log.Printf]/[log.Println]; one constructor
    stands for each call site, carrying the values the line is formatted
    from (error values are not represented). *)

Inductive LogEntry : Set :=
| LogInvalidURL (fullURL : string)
| LogMkdirError
| LogFileExists (filePath : string)
| LogFailedToDownload (finalURL : string)
| LogDownloadFailed (finalURL status : string)
| LogInvalidContentType (finalURL contentType : string)
| LogFailedToRead (finalURL : string)
| LogZeroBytes (finalURL : string)
| LogFailedToCreate (finalURL : string)
| LogFailedToWrite (finalURL : string)
| LogSuccess (written : nat) (finalURL filePath : string)
| LogErrorParsingURL
| LogErrorDecodingFileName
| LogErrorParsingHTML
| LogErrorDecodingHref
| LogScraping (uri : string)
| LogFatal.

(** ** [removeDuplicatesFromSlice] *)

(** The [for ... range slice] loop, on the map [check] and the slice
    [newReturnSlice] it updates.  A Go map read of an absent key yields the
    zero value [false]. *)
Fixpoint removeDuplicates_loop (slice : list string) (check : gmap string bool)
         (newReturnSlice : list string) : list string :=
  match slice with
  | [] => newReturnSlice
  | content :: slice' =>
      if negb (default false (check !! content)) then
        removeDuplicates_loop slice' (<[content := true]> check)
                              (newReturnSlice ++ [content])
      else removeDuplicates_loop slice' check newReturnSlice
  end.

Definition removeDuplicatesFromSlice (slice : list string) : list string :=
  removeDuplicates_loop slice ∅ [].

(** The output the specification describes: the value at a position is
    retained exactly when it does not occur at an earlier position;
    [before] holds the values of the earlier positions. *)
Fixpoint firstOccurrences_after (before l : list string) : list string :=
  match l with
  | [] => []
  | x :: l' =>
      if decide (x ∈ before) then firstOccurrences_after (before ++ [x]) l'
      else x :: firstOccurrences_after (before ++ [x]) l'
  end.

Definition firstOccurrences (l : list string) : list string :=
  firstOccurrences_after [] l.

(** [check] marks exactly the values of [before]. *)
Definition marks (check : gmap string bool) (before : list string) : Prop :=
  ∀ x, default false (check !! x) = true ↔ x ∈ before.

(** ** [isUrlValid] *)

Definition isUrlValid (uri : string) : bool :=
  match GoUrl.ParseRequestURI uri with
  | Some _ => true
  | None => false
  end.

(** ** [sanitizeFileNameFromURL] *)

(** The statements after a successful [url.Parse], from the base name of the
    parsed path on.  [fileName, err = url.QueryUnescape(fileName)] assigns
    both results: when decoding fails [fileName] becomes the empty string
    the library returns beside the error, the error is logged and the
    function goes on. *)
Definition sanitizeBaseName (base : string) : string * list LogEntry :=
  let '(fileName, lg) :=
    match GoUrl.QueryUnescape base with
    | Some decoded => (decoded, [])
    | None => (EmptyString, [LogErrorDecodingFileName])
    end in
  let safeFileName := GoRegexp.ReplaceAllString fileName in
  let safeFileName := GoStrings.Trim safeFileName "_" in
  if String.eqb safeFileName EmptyString then ("downloaded_file", lg)
  else (GoStrings.ToLower safeFileName, lg).

(** The function with the lines it logs. *)
Definition sanitizeFileNameFromURL_logged (rawURL : string) : string * list LogEntry :=
  match GoUrl.Parse rawURL with
  | None => ("invalid_filename", [LogErrorParsingURL])
  | Some parsedURL => sanitizeBaseName (GoPath.Base (GoUrl.Path parsedURL))
  end.

Definition sanitizeFileNameFromURL (rawURL : string) : string :=
  fst (sanitizeFileNameFromURL_logged rawURL).

(** The characters of [[a-z0-9_.-]]. *)
Definition filename_char (c : ascii) : bool :=
  is_lower c || is_digit c || inb c "_.-".

Fixpoint string_forall (P : ascii → bool) (s : string) : bool :=
  match s with
  | EmptyString => true
  | String c s' => P c && string_forall P s'
  end.

(** [s] matches [[a-z0-9_.-]+]. *)
Definition is_filename (s : string) : bool :=
  negb (String.eqb s EmptyString) && string_forall filename_char s.

(** ** The download loop of [main] *)

Definition origin : string := "https://www.avient.com".

(** [fullURL] as the loop body leaves it before validation: declared as the
    empty string and assigned only under [!strings.HasPrefix(url, origin)]. *)
Definition resolveURL (url : string) : string :=
  if negb (GoStrings.HasPrefix url origin) then origin +:+ url else EmptyString.

(** What one iteration does, besides sleeping. *)
Inductive LoopEvent : Set :=
| Skipped (fullURL : string)   (* [log.Println("Invalid URL", fullURL); continue] *)
| Launched (fullURL : string). (* [pdfDownloadWaitGroup.Add(1); go downloadPDF(fullURL, ...)] *)

Definition loopBody (url : string) : LoopEvent :=
  let fullURL := resolveURL url in
  if negb (isUrlValid fullURL) then Skipped fullURL else Launched fullURL.

(** [for _, url := range fullURLList { ... }] *)
Definition downloadLoop (fullURLList : list string) : list LoopEvent :=
  map loopBody fullURLList.

(** The links [main] iterates over, from the links [parseHTML] returned:
    deduplicated, then reversed in place by [slices.Reverse]. *)
Definition linksToVisit (parsed : list string) : list string :=
  rev (removeDuplicatesFromSlice parsed).

Definition launchedBy (e : LoopEvent) : option string :=
  match e with Launched u => Some u | Skipped _ => None end.

(** The download tasks [main] starts, in the order it starts them. *)
Definition launchedTasks (parsed : list string) : list string :=
  omap launchedBy (downloadLoop (linksToVisit parsed)).

(** ** [parseHTML] *)

(** The markup parser [goquery] is an external capability: build a document
    from markup text, select elements in document order, read an
    attribute.  The program is modelled over any implementation of it. *)
Class MarkupParser : Type := {
  Document : Type;
  Selection : Type;
  (** [goquery.NewDocumentFromReader(strings.NewReader(html))]; [None] is
      its error. *)
  NewDocumentFromReader : string → option Document;
  (** [doc.Find(selector)], the matched elements in document order. *)
  Find : Document → string → list Selection;
  (** [selection.Attr(name)]; [None] is [exists = false]. *)
  Attr : Selection → string → option string
}.

(** The callback passed to [Each], on the slice [pdfLinks] it appends to
    and the lines logged so far. *)
Definition visitAnchor `{MarkupParser} (acc : list string * list LogEntry)
           (selection : Selection) : list string * list LogEntry :=
  let '(pdfLinks, lg) := acc in
  match Attr selection "href" with
  | None => (pdfLinks, lg)
  | Some href =>
      match GoUrl.QueryUnescape href with
      | None => (pdfLinks, lg ++ [LogErrorDecodingHref])
      | Some decodedHref =>
          if GoStrings.HasSuffix (GoStrings.ToLower decodedHref) ".pdf"
          then (pdfLinks ++ [href], lg)
          else (pdfLinks, lg)
      end
  end.

Definition parseHTML_logged `{MarkupParser} (htmlContent : string)
  : list string * list LogEntry :=
  match NewDocumentFromReader htmlContent with
  | None => ([], [LogErrorParsingHTML])
  | Some doc => fold_left visitAnchor (Find doc "a[href]") ([], [])
  end.

Definition parseHTML `{MarkupParser} (htmlContent : string) : list string :=
  fst (parseHTML_logged htmlContent).

(** An href qualifies when its percent-decoding succeeds and the decoded,
    lowercased text ends with [".pdf"]. *)
Definition isPdfHref (href : string) : bool :=
  match GoUrl.QueryUnescape href with
  | Some decodedHref => GoStrings.HasSuffix (GoStrings.ToLower decodedHref) ".pdf"
  | None => false
  end.

(** The href values of the anchors of a document, in document order. *)
Definition anchorHrefs `{MarkupParser} (doc : Document) : list string :=
  omap (λ selection, Attr selection "href") (Find doc "a[href]").

(** An implementation of the capability for documents given directly as
    the list of their elements, each element being its attribute list;
    whatever the text, the document is [elements].  It serves to run the
    program on a document with known anchors. *)
Definition fixedDocument (elements : list (list (string * string))) : MarkupParser :=
  {| Document := list (list (string * string));
     Selection := list (string * string);
     NewDocumentFromReader := λ _, Some elements;
     Find := λ doc _, doc;
     Attr := λ selection name,
       snd <$> List.find (λ kv, String.eqb (fst kv) name) selection |}.

(** ** The world the program acts on *)

Inductive Entry : Set :=
| File (content : string)
| Dir.

(** The file system by path, the GET requests issued so far (oldest first)
    and the log. *)
Record World : Type := mkWorld {
  fs : gmap string Entry;
  requests : list string;
  log : list LogEntry
}.

Definition logged (w : World) (lg : list LogEntry) : World :=
  mkWorld (fs w) (requests w) (log w ++ lg).

Definition requested (w : World) (url : string) : World :=
  mkWorld (fs w) (requests w ++ [url]) (log w).

Definition written (w : World) (path : string) (content : string) : World :=
  mkWorld (<[path := File content]> (fs w)) (requests w) (log w).

(** ** [fileExists]: [os.Stat] succeeds and the entry is not a directory. *)
Definition fileExists (w : World) (filename : string) : bool :=
  match fs w !! filename with
  | Some (File _) => true
  | Some Dir | None => false
  end.

Definition isDir (w : World) (filename : string) : bool :=
  match fs w !! filename with
  | Some Dir => true
  | Some (File _) | None => false
  end.

(** ** [downloadPDF] *)

(** What [client.Get] hands back when the transport succeeds: the status,
    the [Content-Type] header (empty when absent), the bytes [io.Copy] reads
    from the body and whether that read ends in an error (the client's
    30-second timeout shows as a transport error or as such a read
    error). *)
Record Response : Set := mkResponse {
  StatusCode : nat;
  Status : string;
  ContentType : string;
  Body : string;
  BodyErr : bool
}.

(** The environment's answers during one call of [downloadPDF]:
    [client_Get = None] is a transport error; [os_Create_err] makes
    [os.Create] fail; [WriteTo_err = Some k] makes [buf.WriteTo(out)] fail
    after [k] bytes reached the file. *)
Record DownloadEnv : Set := mkDownloadEnv {
  client_Get : option Response;
  os_Create_err : bool;
  WriteTo_err : option nat
}.

Definition StatusOK : nat := 200.

(** The function's result and the world it leaves.  [defer wg.Done()] acts
    on the caller's counter, see [step]. *)
Definition downloadPDF (env : DownloadEnv) (finalURL outputDir : string)
           (w : World) : bool * World :=
  let '(filename, lg) := sanitizeFileNameFromURL_logged finalURL in
  let w := logged w lg in
  let filePath := GoFilepath.Join outputDir filename in
  if fileExists w filePath then (false, logged w [LogFileExists filePath])
  else
    let w := requested w finalURL in
    match client_Get env with
    | None => (false, logged w [LogFailedToDownload finalURL])
    | Some resp =>
        if negb (StatusCode resp =? StatusOK)%nat then
          (false, logged w [LogDownloadFailed finalURL (Status resp)])
        else if negb (GoStrings.Contains (ContentType resp) "application/pdf") then
          (false, logged w [LogInvalidContentType finalURL (ContentType resp)])
        else if BodyErr resp then (false, logged w [LogFailedToRead finalURL])
        else
          let buf := Body resp in
          let n := String.length buf in
          if (n =? 0)%nat then (false, logged w [LogZeroBytes finalURL])
          else if os_Create_err env || isDir w filePath then
            (false, logged w [LogFailedToCreate finalURL])
          else
            (* [os.Create] succeeded: the file exists and is empty *)
            let w := written w filePath EmptyString in
            match WriteTo_err env with
            | Some k =>
                (false, logged (written w filePath (GoStrings.take k buf))
                               [LogFailedToWrite finalURL])
            | None =>
                (true, logged (written w filePath buf)
                              [LogSuccess n finalURL filePath])
            end
    end.

(** ** [appendAndWriteToFile] and [getDataFromURL] *)

(** A call either returns or ends the process ([log.Fatalln]). *)
Inductive Outcome : Type :=
| Exit (w : World)
| Return (w : World).

(** The environment's answers during one call of [appendAndWriteToFile]:
    [OpenFile_err] makes [os.OpenFile] fail, [WriteString_err = Some k] makes
    the write fail after [k] bytes were appended, [Close_err] makes closing
    the file fail. *)
Record AppendEnv : Set := mkAppendEnv {
  OpenFile_err : bool;
  WriteString_err : option nat;
  Close_err : bool
}.

(** ["\n"] *)
Definition newline : string := String "010" EmptyString.

Definition contentOf (w : World) (path : string) : string :=
  match fs w !! path with
  | Some (File content) => content
  | Some Dir | None => EmptyString
  end.

Definition appendAndWriteToFile (env : AppendEnv) (path content : string)
           (w : World) : Outcome :=
  if OpenFile_err env || isDir w path then Exit (logged w [LogFatal])
  else
    let old := contentOf w path in
    match WriteString_err env with
    | Some k =>
        Exit (logged (written w path (old +:+ GoStrings.take k (content +:+ newline))) [LogFatal])
    | None =>
        let w := written w path (old +:+ content +:+ newline) in
        if Close_err env then Exit (logged w [LogFatal]) else Return w
    end.

(** What [http.Get] hands back when the transport succeeds, as far as
    [getDataFromURL] looks: the bytes [io.ReadAll] reads, whether that read
    fails and whether closing the body fails. *)
Record PageResponse : Set := mkPageResponse {
  PageBody : string;
  ReadAll_err : bool;
  BodyClose_err : bool
}.

(** The first half of [getDataFromURL], up to the closed response body:
    [inl w] ends the process, [inr (body, w)] goes on. *)
Definition fetchPage (get : option PageResponse) (uri : string) (w : World)
  : World + string * World :=
  let w := requested (logged w [LogScraping uri]) uri in
  match get with
  | None => inl (logged w [LogFatal])
  | Some response =>
      if ReadAll_err response then inl (logged w [LogFatal])
      else if BodyClose_err response then inl (logged w [LogFatal])
      else inr (PageBody response, w)
  end.

(** [getDataFromURL]; on [Return] the deferred [wg.Done()] runs, see
    [step]. *)
Definition getDataFromURL (get : option PageResponse) (env : AppendEnv)
           (uri localLocationo : string) (w : World) : Outcome :=
  match fetchPage get uri w with
  | inl w' => Exit w'
  | inr (body, w') => appendAndWriteToFile env localLocationo body w'
  end.

(** ** [main] as a transition system

    [main] starts one goroutine per page and one per download and joins
    them through two [sync.WaitGroup]s.  The run is modelled by the
    interleavings of the steps of [main] and of the goroutines.  A page
    goroutine takes two steps (the request up to the closed body, then the
    append and the deferred [Done]); a download goroutine runs [downloadPDF]
    in one step.  The environment chooses the answer of every request and
    file operation. *)

Definition baseURL : string := "https://www.avient.com/resources/safety-data-sheets?page=".
Definition localLocation : string := "avient.com.html".
Definition outputDir : string := "PDFs/".
Definition lastPage : nat := 5000.

(** [fmt.Sprintf("%s%d", baseURL, pageNumber)] *)
Definition pageURL (pageNumber : nat) : string := baseURL +:+ pretty pageNumber.

(** Where [main] stands. *)
Inductive MainPC : Type :=
| AtStart                              (* [if !fileExists(localLocation)] *)
| AtPageLoop (pageNumber : nat)        (* head of the page loop *)
| AtPageWait                           (* [htmlDownloadWaitGroup.Wait()] *)
| AtExtract                            (* [if fileExists(localLocation)] *)
| AtDownloadLoop (rest : list string)  (* head of the download loop *)
| AtDownloadWait                       (* [pdfDownloadWaitGroup.Wait()] *)
| AtEnd.

(** A page goroutine: before its request, or holding the body to append. *)
Inductive PageTask : Set :=
| Fetching (uri : string)
| Appending (uri body : string).

Record State : Type := mkState {
  pc : MainPC;
  world : World;
  htmlDownloadWaitGroup : nat;
  pageTasks : list PageTask;
  pdfDownloadWaitGroup : nat;
  downloadTasks : list string;
  (** [false] once [log.Fatalln] has ended the process *)
  running : bool
}.

Definition initial (w : World) : State := mkState AtStart w 0 [] 0 [] true.

(** What a step does, as seen from outside. *)
Inductive Event : Set :=
| EvCrawlNeeded (needed : bool)
| EvPageLaunched (uri : string)
| EvPageLoopDone
| EvPagesJoined
| EvTransportError (uri : string)
| EvFatal
| EvPageFetched (uri : string)
| EvPageAppended (uri : string)
| EvExtracted (links : list string)
| EvNothingToExtract
| EvDownloadLaunched (fullURL : string)
| EvInvalidURL (fullURL : string)
| EvDownloadLoopDone
| EvDownloadRan (fullURL : string) (ok : bool)
| EvDownloadsJoined.

(** The events of the download stage. *)
Definition downloadStageEvent (e : Event) : bool :=
  match e with
  | EvExtracted _ | EvNothingToExtract | EvDownloadLaunched _ | EvInvalidURL _
  | EvDownloadLoopDone | EvDownloadRan _ _ | EvDownloadsJoined => true
  | _ => false
  end.

Definition set_pc (s : State) (p : MainPC) : State :=
  mkState p (world s) (htmlDownloadWaitGroup s) (pageTasks s)
          (pdfDownloadWaitGroup s) (downloadTasks s) (running s).

Definition exited (s : State) (w : World) : State :=
  mkState (pc s) w (htmlDownloadWaitGroup s) (pageTasks s)
          (pdfDownloadWaitGroup s) (downloadTasks s) false.

(** [os.MkdirAll(outputDir, 0o755)]: on success the directory exists; an
    error is logged and [main] goes on. *)
Definition mkdirAll (err : bool) (dir : string) (w : World) : World :=
  if err then logged w [LogMkdirError]
  else mkWorld (<[GoFilepath.Clean dir := Dir]> (fs w)) (requests w) (log w).

Section Run.

Context `{MarkupParser}.

Inductive step : State → Event → State → Prop :=
(* [main] *)
| step_start s :
    running s = true → pc s = AtStart →
    step s (EvCrawlNeeded (negb (fileExists (world s) localLocation)))
         (set_pc s (if fileExists (world s) localLocation
                    then AtExtract else AtPageLoop 0))
| step_launch_page s pageNumber :
    running s = true → pc s = AtPageLoop pageNumber → (pageNumber ≤ lastPage)%nat →
    step s (EvPageLaunched (pageURL pageNumber))
         (mkState (AtPageLoop (S pageNumber)) (world s)
                  (S (htmlDownloadWaitGroup s))
                  (pageTasks s ++ [Fetching (pageURL pageNumber)])
                  (pdfDownloadWaitGroup s) (downloadTasks s) true)
| step_page_loop_done s pageNumber :
    running s = true → pc s = AtPageLoop pageNumber → (lastPage < pageNumber)%nat →
    step s EvPageLoopDone (set_pc s AtPageWait)
| step_page_wait s :
    running s = true → pc s = AtPageWait → htmlDownloadWaitGroup s = 0 →
    step s EvPagesJoined (set_pc s AtExtract)
| step_nothing_to_extract s :
    running s = true → pc s = AtExtract →
    fileExists (world s) localLocation = false →
    step s EvNothingToExtract (set_pc s AtEnd)
| step_read_fails s :
    (* [readAFileAsString]: [os.ReadFile] fails *)
    running s = true → pc s = AtExtract →
    fileExists (world s) localLocation = true →
    step s EvFatal (exited s (logged (world s) [LogFatal]))
| step_extract s mkdirErr parsed lg fullURLList :
    running s = true → pc s = AtExtract →
    fileExists (world s) localLocation = true →
    parseHTML_logged (contentOf (world s) localLocation) = (parsed, lg) →
    fullURLList = linksToVisit parsed →
    step s (EvExtracted fullURLList)
         (mkState (AtDownloadLoop fullURLList)
                  (mkdirAll mkdirErr outputDir (logged (world s) lg))
                  (htmlDownloadWaitGroup s) (pageTasks s)
                  (pdfDownloadWaitGroup s) (downloadTasks s) true)
| step_launch_download s url rest fullURL :
    running s = true → pc s = AtDownloadLoop (url :: rest) →
    loopBody url = Launched fullURL →
    step s (EvDownloadLaunched fullURL)
         (mkState (AtDownloadLoop rest) (world s)
                  (htmlDownloadWaitGroup s) (pageTasks s)
                  (S (pdfDownloadWaitGroup s)) (downloadTasks s ++ [fullURL]) true)
| step_invalid_url s url rest fullURL :
    running s = true → pc s = AtDownloadLoop (url :: rest) →
    loopBody url = Skipped fullURL →
    step s (EvInvalidURL fullURL)
         (mkState (AtDownloadLoop rest) (logged (world s) [LogInvalidURL fullURL])
                  (htmlDownloadWaitGroup s) (pageTasks s)
                  (pdfDownloadWaitGroup s) (downloadTasks s) true)
| step_download_loop_done s :
    running s = true → pc s = AtDownloadLoop [] →
    step s EvDownloadLoopDone (set_pc s AtDownloadWait)
| step_download_wait s :
    running s = true → pc s = AtDownloadWait → pdfDownloadWaitGroup s = 0 →
    step s EvDownloadsJoined (set_pc s AtEnd)
(* a page goroutine, [getDataFromURL] *)
| step_transport_error s before uri after w' :
    running s = true → pageTasks s = before ++ Fetching uri :: after →
    fetchPage None uri (world s) = inl w' →
    step s (EvTransportError uri) (exited s w')
| step_page_read_fails s before uri after response w' :
    running s = true → pageTasks s = before ++ Fetching uri :: after →
    fetchPage (Some response) uri (world s) = inl w' →
    step s EvFatal (exited s w')
| step_page_fetched s before uri after response body w' :
    running s = true → pageTasks s = before ++ Fetching uri :: after →
    fetchPage (Some response) uri (world s) = inr (body, w') →
    step s (EvPageFetched uri)
         (mkState (pc s) w' (htmlDownloadWaitGroup s)
                  (before ++ Appending uri body :: after)
                  (pdfDownloadWaitGroup s) (downloadTasks s) true)
| step_page_append_fails s before uri body after env w' :
    running s = true → pageTasks s = before ++ Appending uri body :: after →
    appendAndWriteToFile env localLocation body (world s) = Exit w' →
    step s EvFatal (exited s w')
| step_page_appended s before uri body after env w' :
    running s = true → pageTasks s = before ++ Appending uri body :: after →
    appendAndWriteToFile env localLocation body (world s) = Return w' →
    step s (EvPageAppended uri)
         (mkState (pc s) w' (pred (htmlDownloadWaitGroup s))
                  (before ++ after)
                  (pdfDownloadWaitGroup s) (downloadTasks s) true)
(* a download goroutine, [downloadPDF] *)
| step_download s before fullURL after env :
    running s = true → downloadTasks s = before ++ fullURL :: after →
    step s (EvDownloadRan fullURL (fst (downloadPDF env fullURL outputDir (world s))))
         (mkState (pc s) (snd (downloadPDF env fullURL outputDir (world s)))
                  (htmlDownloadWaitGroup s) (pageTasks s)
                  (pred (pdfDownloadWaitGroup s)) (before ++ after) true).

(** A run: the events so far, oldest first, and the state reached. *)
Inductive run (s0 : State) : list Event → State → Prop :=
| run_nil : run s0 [] s0
| run_step tr s e s' : run s0 tr s → step s e s' → run s0 (tr ++ [e]) s'.

End Run.

(** [main] has not passed [htmlDownloadWaitGroup.Wait()]. *)
Definition crawling (p : MainPC) : bool :=
  match p with
  | AtStart | AtPageLoop _ | AtPageWait => true
  | AtExtract | AtDownloadLoop _ | AtDownloadWait | AtEnd => false
  end.

(** What holds of every run from [initial w0]: while [main] is crawling, the
    page wait group counts the page goroutines, no download-stage event has
    happened and only the aggregate artifact has changed; afterwards no page
    goroutine is left and no transport error has happened; a transport
    error stops the process and is the last event. *)
Record Invariant (w0 : World) (tr : list Event) (s : State) : Prop := {
  inv_running : running s = true → ∀ uri, EvTransportError uri ∉ tr;
  inv_last : ∀ uri, EvTransportError uri ∈ tr → ∃ tr0, tr = tr0 ++ [EvTransportError uri];
  inv_counter : crawling (pc s) = true → htmlDownloadWaitGroup s = length (pageTasks s);
  inv_no_download : crawling (pc s) = true → downloadTasks s = [];
  inv_events : crawling (pc s) = true → ∀ e, e ∈ tr → downloadStageEvent e = false;
  inv_files : crawling (pc s) = true →
              ∀ p, p ≠ localLocation → fs (world s) !! p = fs w0 !! p;
  inv_joined : crawling (pc s) = false → pageTasks s = [];
  inv_no_error : crawling (pc s) = false → ∀ uri, EvTransportError uri ∉ tr;
  inv_start : pc s = AtStart → pageTasks s = []
}.

(** ** Further notions used by the properties *)

(** The last byte of a string. *)
Fixpoint last_byte (s : string) : option ascii :=
  match s with
  | EmptyString => None
  | String c EmptyString => Some c
  | String _ s' => last_byte s'
  end.

(** A name the sanitizer has nothing to do on: it matches [[a-z0-9_.-]+]
    and neither begins nor ends with an underscore. *)
Definition is_clean_name (s : string) : bool :=
  is_filename s
  && negb (GoStrings.HasPrefix s "_")
  && negb (GoStrings.HasSuffix s "_").

(** The page URLs for which a goroutine was started, in launch order. *)
Definition pageLaunch (e : Event) : option string :=
  match e with EvPageLaunched uri => Some uri | _ => None end.

Definition launchedPages (tr : list Event) : list string := omap pageLaunch tr.

(** The download URLs for which a goroutine was started, in launch order. *)
Definition downloadLaunch (e : Event) : option string :=
  match e with EvDownloadLaunched fullURL => Some fullURL | _ => None end.

Definition launchedDownloads (tr : list Event) : list string := omap downloadLaunch tr.

(** The links the download loop has still to visit. *)
Definition pendingLinks (p : MainPC) : list string :=
  match p with AtDownloadLoop rest => rest | _ => [] end.

(** [main] is in the download loop or waits for the downloads. *)
Definition downloading (p : MainPC) : bool :=
  match p with AtDownloadLoop _ | AtDownloadWait => true | _ => false end.

(** [main] has not yet extracted the links. *)
Definition beforeExtraction (p : MainPC) : bool :=
  match p with AtStart | AtPageLoop _ | AtPageWait | AtExtract => true | _ => false end.

(** Both wait groups count the goroutines that have not finished, and
    download goroutines exist only during the download stage. *)
Record Counted (s : State) : Prop := {
  counted_pages : htmlDownloadWaitGroup s = length (pageTasks s);
  counted_downloads : pdfDownloadWaitGroup s = length (downloadTasks s);
  counted_idle : downloading (pc s) = false → downloadTasks s = []
}.

(** The pages launched so far are the pages [0 .. n-1], in this order. *)
Record PagesInOrder (tr : list Event) (s : State) (n : nat) : Prop := {
  pages_bound : (n ≤ S lastPage)%nat;
  pages_launched : launchedPages tr = pageURL <$> seq 0 n;
  pages_loop : ∀ k, pc s = AtPageLoop k → k = n;
  pages_start : pc s = AtStart → n = 0;
  pages_done : pc s = AtPageWait → n = S lastPage
}.

(** With the aggregate artifact present at the start, [main] never enters
    the page loop. *)
Record CrawlSkipped (w0 : World) (tr : list Event) (s : State) : Prop := {
  skipped_pc : pc s = AtStart ∨ crawling (pc s) = false;
  skipped_start : pc s = AtStart → tr = [] ∧ world s = w0;
  skipped_pages : launchedPages tr = []
}.

(** The downloads launched so far and the links still to visit make up the
    tasks of the extracted list. *)
Record DownloadsInOrder (tr : list Event) (s : State) : Prop := {
  downloads_none : beforeExtraction (pc s) = true →
                   launchedDownloads tr = [] ∧ ∀ links, EvExtracted links ∉ tr;
  downloads_list : ∀ links, EvExtracted links ∈ tr →
                   ∃ parsed, links = linksToVisit parsed
                             ∧ launchedDownloads tr
                               ++ omap launchedBy (downloadLoop (pendingLinks (pc s)))
                               = launchedTasks parsed
}.

(** A small run, used to exercise the properties of runs: the aggregate
    artifact is there with one anchor, so [main] skips the crawl, extracts
    the link, launches its download, which fails at the transport, and
    ends. *)
Definition exampleParser : MarkupParser := fixedDocument [[("href", "/a.pdf")]].

Definition exampleWorld : World :=
  mkWorld {[localLocation := File "<a href=/a.pdf>a</a>"]} [] [].

Definition exampleTrace : list Event :=
  [EvCrawlNeeded false; EvExtracted ["/a.pdf"];
   EvDownloadLaunched "https://www.avient.com/a.pdf"; EvDownloadLoopDone;
   EvDownloadRan "https://www.avient.com/a.pdf" false; EvDownloadsJoined].

(** An href whose percent-decoding fails. *)
Definition undecodable (href : string) : bool :=
  match GoUrl.QueryUnescape href with
  | Some _ => false
  | None => true
  end.

(** * Properties *)

(** ** The library model on known inputs *)

Section LibraryModel.

Example Base_examples :
  GoPath.Base "/a/b" = "b" ∧ GoPath.Base "/a/b/" = "b" ∧ GoPath.Base "/" = "/"
  ∧ GoPath.Base EmptyString = "." ∧ GoPath.Base "a.pdf" = "a.pdf".
Proof. repeat split; reflexivity. Qed.

Example Join_examples :
  GoFilepath.Join "a" "b/c" = "a/b/c"
  ∧ GoFilepath.Join "a/b" "../../../xyz" = "../xyz"
  ∧ GoFilepath.Join "PDFs/" "a.pdf" = "PDFs/a.pdf"
  ∧ GoFilepath.Join "PDFs/" "." = "PDFs"
  ∧ GoFilepath.Clean "/../a/./b//../c/" = "/a/c".
Proof. repeat split; reflexivity. Qed.

Example QueryUnescape_examples :
  GoUrl.QueryUnescape "a%20b+c%2Fd" = Some "a b c/d"
  ∧ GoUrl.QueryUnescape "100%" = None
  ∧ GoUrl.QueryUnescape "%zz" = None
  ∧ GoUrl.QueryUnescape "/doc/A.PDF" = Some "/doc/A.PDF".
Proof. repeat split; reflexivity. Qed.

Example Parse_examples :
  GoUrl.Parse "https://www.avient.com/sites/A%20B.pdf?x=1#top"
  = Some (GoUrl.mkURL "https" EmptyString None "www.avient.com"
                    "/sites/A B.pdf" "x=1" "top")
  ∧ GoUrl.Parse "mailto:someone@example.com"
    = Some (GoUrl.mkURL "mailto" "someone@example.com" None EmptyString
                      EmptyString EmptyString EmptyString)
  ∧ GoUrl.Parse "//user:pw@host:8080/p"
    = Some (GoUrl.mkURL EmptyString EmptyString (Some ("user", Some "pw"))
                      "host:8080" "/p" EmptyString EmptyString)
  ∧ GoUrl.Parse "http://host:port/" = None
  ∧ GoUrl.Parse "http://host/%zz" = None
  ∧ GoUrl.Parse ":no-scheme" = None.
Proof. repeat split; vm_compute; reflexivity. Qed.

Example ParseRequestURI_examples :
  GoUrl.ParseRequestURI EmptyString = None
  ∧ GoUrl.ParseRequestURI "relative/path" = None
  ∧ GoUrl.Path <$> GoUrl.ParseRequestURI "/foo?q=1" = Some "/foo"
  ∧ GoUrl.Path <$> GoUrl.ParseRequestURI "*" = Some "*"
  ∧ GoUrl.Host <$> GoUrl.ParseRequestURI "https://www.avient.com/a.pdf"
    = Some "www.avient.com".
Proof. repeat split; vm_compute; reflexivity. Qed.

Example ReplaceAllString_examples :
  GoRegexp.ReplaceAllString "a b/c_d-e.PDF" = "a_b_c_d-e.PDF"
  ∧ GoRegexp.ReplaceAllString "(1).pdf" = "_1_.pdf"
  ∧ GoStrings.Trim "__a_b__" "_" = "a_b"
  ∧ GoStrings.Trim "___" "_" = EmptyString.
Proof. repeat split; reflexivity. Qed.

(** A two-byte rune is one match, an invalid byte is one match. *)
Example ReplaceAllString_runes :
  GoRegexp.ReplaceAllString (String "195" (String "169" "x")) = "_x"
  ∧ GoRegexp.ReplaceAllString (String "195" "x") = "_x"
  ∧ GoRegexp.ReplaceAllString (String "226" (String "130" (String "172" "x"))) = "_x".
Proof. repeat split; reflexivity. Qed.

Example pageURL_examples :
  pageURL 0 = "https://www.avient.com/resources/safety-data-sheets?page=0"
  ∧ pageURL 5000 = "https://www.avient.com/resources/safety-data-sheets?page=5000".
Proof. split; vm_compute; reflexivity. Qed.

Example sanitizeFileNameFromURL_examples :
  sanitizeFileNameFromURL "https://www.avient.com/sites/default/files/A%20B%20(1).PDF"
  = "a_b__1_.pdf"
  ∧ sanitizeFileNameFromURL "https://www.avient.com/a.pdf?download=1" = "a.pdf"
  ∧ sanitizeFileNameFromURL "https://www.avient.com/%20%20" = "downloaded_file"
  ∧ sanitizeFileNameFromURL "https://www.avient.com/" = "downloaded_file"
  ∧ sanitizeFileNameFromURL "http://host:port/" = "invalid_filename".
Proof. repeat split; vm_compute; reflexivity. Qed.

End LibraryModel.



(** ** Deduplication *)

Section Deduplication.

Lemma marks_empty : marks ∅ [].
Proof.
  intros x. rewrite lookup_empty. simpl. split; [discriminate|].
  intros H. inversion H.
Qed.

Lemma marks_insert check before x :
  marks check before → marks (<[x := true]> check) (before ++ [x]).
Proof.
  intros Hm y. rewrite elem_of_app, list_elem_of_singleton.
  destruct (decide (x = y)) as [->|Hne].
  - rewrite lookup_insert_eq. simpl. tauto.
  - rewrite lookup_insert_ne by done. rewrite (Hm y). split; [tauto|].
    intros [?|?]; [done|congruence].
Qed.

Lemma marks_seen check before x :
  marks check before → x ∈ before → marks check (before ++ [x]).
Proof.
  intros Hm Hx y. rewrite (Hm y), elem_of_app, list_elem_of_singleton.
  split; [tauto|]. intros [?| ->]; done.
Qed.

Lemma removeDuplicates_loop_spec slice :
  ∀ check before acc,
    marks check before →
    removeDuplicates_loop slice check acc
    = acc ++ firstOccurrences_after before slice.
Proof.
  induction slice as [|x slice IH]; intros check before acc Hm; simpl.
  - by rewrite app_nil_r.
  - destruct (decide (x ∈ before)) as [Hin|Hnin].
    + assert (default false (check !! x) = true) as -> by (by apply Hm).
      simpl. apply IH. by apply marks_seen.
    + assert (default false (check !! x) = false) as ->.
      { destruct (default false (check !! x)) eqn:E; [|done].
        exfalso. apply Hnin. by apply Hm. }
      simpl. rewrite (IH _ (before ++ [x])) by (by apply marks_insert).
      by rewrite <- app_assoc.
Qed.

Lemma removeDuplicates_firstOccurrences slice :
  removeDuplicatesFromSlice slice = firstOccurrences slice.
Proof.
  unfold removeDuplicatesFromSlice, firstOccurrences.
  by rewrite (removeDuplicates_loop_spec slice ∅ [] [] marks_empty).
Qed.

Lemma elem_of_firstOccurrences_after l :
  ∀ before x, x ∈ firstOccurrences_after before l ↔ x ∈ l ∧ x ∉ before.
Proof.
  induction l as [|y l IH]; intros before x; simpl.
  - split; [intros H; inversion H | intros [H _]; inversion H].
  - destruct (decide (y ∈ before)) as [Hin|Hnin].
    + rewrite IH, elem_of_app, list_elem_of_singleton, elem_of_cons.
      split.
      * intros [Hx Hn]. split; [by right | tauto].
      * intros [[->|Hx] Hn]; [done|]. split; [done|].
        intros [?| ->]; done.
    + rewrite elem_of_cons, IH, elem_of_app, list_elem_of_singleton, elem_of_cons.
      split.
      * intros [->|[Hx Hn]]; [by split; [left|] | split; [by right | tauto]].
      * intros [[->|Hx] Hn]; [by left|].
        destruct (decide (x = y)) as [->|Hne]; [by left|].
        right. split; [done|]. intros [?|?]; done.
Qed.

Lemma NoDup_firstOccurrences_after l :
  ∀ before, NoDup (firstOccurrences_after before l).
Proof.
  induction l as [|y l IH]; intros before; simpl.
  - constructor.
  - destruct (decide (y ∈ before)); [apply IH|].
    constructor; [|apply IH].
    rewrite elem_of_firstOccurrences_after, elem_of_app, list_elem_of_singleton.
    intros [_ Hn]. apply Hn. by right.
Qed.

Lemma sublist_firstOccurrences_after l :
  ∀ before, firstOccurrences_after before l `sublist_of` l.
Proof.
  induction l as [|y l IH]; intros before; simpl; [done|].
  destruct (decide (y ∈ before)).
  - apply sublist_cons, IH.
  - apply sublist_skip, IH.
Qed.

Lemma firstOccurrences_after_fixed l :
  ∀ before, NoDup l → (∀ x, x ∈ l → x ∉ before) →
            firstOccurrences_after before l = l.
Proof.
  induction l as [|y l IH]; intros before Hnd Hdisj; simpl; [done|].
  inversion Hnd as [|? ? Hy Hnd']; subst.
  destruct (decide (y ∈ before)) as [Hin|Hnin].
  - exfalso. apply (Hdisj y); [by left | done].
  - f_equal. apply IH; [done|].
    intros x Hx. rewrite elem_of_app, list_elem_of_singleton.
    intros [Hb| ->]; [|done]. apply (Hdisj x); [by right | done].
Qed.

(** C9.  For every input sequence of strings, [removeDuplicatesFromSlice]
    returns the values in first-occurrence order (exactly the positions
    whose value does not occur earlier, in their original order), the
    result contains every input value and no repeated value, and
    deduplicating a deduplicated sequence changes nothing. *)
Theorem removeDuplicatesFromSlice_first_occurrence_order (slice : list string) :
  removeDuplicatesFromSlice slice = firstOccurrences slice
  ∧ removeDuplicatesFromSlice slice `sublist_of` slice
  ∧ (∀ x, x ∈ removeDuplicatesFromSlice slice ↔ x ∈ slice)
  ∧ NoDup (removeDuplicatesFromSlice slice)
  ∧ removeDuplicatesFromSlice (removeDuplicatesFromSlice slice)
    = removeDuplicatesFromSlice slice.
Proof.
  rewrite !removeDuplicates_firstOccurrences.
  split; [done|]. split; [apply sublist_firstOccurrences_after|].
  split.
  { intros x. unfold firstOccurrences.
    rewrite elem_of_firstOccurrences_after. split; [tauto|].
    intros Hx. split; [done|]. intros H. inversion H. }
  split; [apply NoDup_firstOccurrences_after|].
  apply firstOccurrences_after_fixed; [apply NoDup_firstOccurrences_after|].
  intros x _ H. inversion H.
Qed.

End Deduplication.

(** ** The download loop *)

Section DownloadLoop.

Lemma firstOccurrences_after_app l1 :
  ∀ before l2,
    firstOccurrences_after before (l1 ++ l2)
    = firstOccurrences_after before l1 ++ firstOccurrences_after (before ++ l1) l2.
Proof.
  induction l1 as [|x l1 IH]; intros before l2; simpl.
  - by rewrite app_nil_r.
  - rewrite IH, <- app_assoc. simpl. by destruct (decide (x ∈ before)).
Qed.

Lemma isUrlValid_empty : isUrlValid EmptyString = false.
Proof. reflexivity. Qed.

(** A link that starts with the origin leaves [fullURL] empty, which is
    not a valid request URI: the iteration logs and launches nothing. *)
Lemma loopBody_absolute url :
  GoStrings.HasPrefix url origin = true → loopBody url = Skipped EmptyString.
Proof. intros Hp. unfold loopBody, resolveURL. by rewrite Hp. Qed.

(** Every other link is resolved by prefixing the origin. *)
Lemma loopBody_relative url :
  GoStrings.HasPrefix url origin = false →
  loopBody url = if isUrlValid (origin +:+ url)
                 then Launched (origin +:+ url) else Skipped (origin +:+ url).
Proof.
  intros Hp. unfold loopBody, resolveURL. rewrite Hp. simpl.
  by destruct (isUrlValid _).
Qed.

Lemma loopBody_Launched url fullURL :
  loopBody url = Launched fullURL → fullURL = origin +:+ url.
Proof.
  destruct (GoStrings.HasPrefix url origin) eqn:Hp.
  - rewrite loopBody_absolute by done. discriminate.
  - rewrite loopBody_relative by done.
    destruct (isUrlValid _); [|discriminate]. by intros [= <-].
Qed.

Lemma append_inj_l (p x y : string) : p +:+ x = p +:+ y → x = y.
Proof. induction p as [|c p IH]; simpl; [done|]. intros [= Heq]. auto. Qed.

Lemma launchedTasks_unfold parsed :
  launchedTasks parsed = omap (λ url, launchedBy (loopBody url)) (linksToVisit parsed).
Proof.
  unfold launchedTasks, downloadLoop. generalize (linksToVisit parsed).
  induction l as [|x l IH]; simpl; [done|].
  destruct (launchedBy (loopBody x)); [f_equal|]; apply IH.
Qed.

Lemma NoDup_launched l :
  NoDup l → NoDup (omap (λ url, launchedBy (loopBody url)) l).
Proof.
  induction 1 as [|x l Hx Hnd IH]; [constructor|].
  cbn [omap list_omap].
  destruct (loopBody x) as [u|u] eqn:Hb; simpl; [done|].
  constructor; [|done].
  intros (y & Hy & Hl)%list_elem_of_omap.
  destruct (loopBody y) as [v|v] eqn:Hby; simpl in Hl; [done|].
  injection Hl as ->.
  apply loopBody_Launched in Hb, Hby. rewrite Hb in Hby.
  apply append_inj_l in Hby as ->. done.
Qed.

Lemma omap_launched_middle l1 a l2 ua :
  loopBody a = Launched ua →
  omap (λ url, launchedBy (loopBody url)) (l1 ++ a :: l2)
  = omap (λ url, launchedBy (loopBody url)) l1
    ++ ua :: omap (λ url, launchedBy (loopBody url)) l2.
Proof.
  intros Ha. rewrite omap_app. f_equal. cbn [omap list_omap]. by rewrite Ha.
Qed.

(** C1 (the code departs from the claim).  The link
    ["https://www.avient.com/a.pdf"] already starts with the origin and is
    a well-formed request URI, yet the loop validates the empty string in
    its place: the iteration logs "Invalid URL" and no download task is
    launched for the link. *)
Theorem absolute_link_never_launched :
  GoStrings.HasPrefix "https://www.avient.com/a.pdf" origin = true
  ∧ isUrlValid "https://www.avient.com/a.pdf" = true
  ∧ resolveURL "https://www.avient.com/a.pdf" = EmptyString
  ∧ downloadLoop ["https://www.avient.com/a.pdf"] = [Skipped EmptyString]
  ∧ launchedTasks ["https://www.avient.com/a.pdf"] = [].
Proof. vm_compute. done. Qed.

(** C10.  [main] iterates over the reverse of the first-occurrence order
    of the extracted links, and starts every download task once: when the
    first occurrence of link [a] precedes that of link [b] and both pass
    validation, the task of [b] is launched before the task of [a]. *)
Theorem downloads_launched_in_reverse_order
        (parsed l1 l2 : list string) (a b ua ub : string) :
  parsed = l1 ++ a :: l2 → a ∉ l1 → b ∉ l1 → b ∈ l2 → a ≠ b →
  loopBody a = Launched ua → loopBody b = Launched ub →
  linksToVisit parsed = rev (firstOccurrences parsed)
  ∧ NoDup (launchedTasks parsed)
  ∧ ∃ t1 t2 t3, launchedTasks parsed = t1 ++ ub :: t2 ++ ua :: t3.
Proof.
  intros -> Ha Hb Hb2 Hab Hla Hlb.
  assert (Hlinks : ∀ l, linksToVisit l = rev (firstOccurrences l)).
  { intros l. unfold linksToVisit. by rewrite removeDuplicates_firstOccurrences. }
  split; [apply Hlinks|]. split.
  { rewrite launchedTasks_unfold, Hlinks. apply NoDup_launched.
    apply NoDup_ListNoDup, List.NoDup_rev, NoDup_ListNoDup.
    apply NoDup_firstOccurrences_after. }
  rewrite launchedTasks_unfold, Hlinks. unfold firstOccurrences.
  rewrite firstOccurrences_after_app. simpl.
  destruct (decide (a ∈ l1)) as [|_]; [done|].
  assert (Hin : b ∈ firstOccurrences_after (l1 ++ [a]) l2).
  { apply elem_of_firstOccurrences_after. split; [done|].
    rewrite elem_of_app, list_elem_of_singleton. intros [?|?]; done. }
  apply list_elem_of_split in Hin as (g1 & g2 & ->).
  simpl. rewrite !rev_app_distr. simpl. rewrite !rev_app_distr. simpl.
  rewrite <- !app_assoc. simpl.
  rewrite (omap_launched_middle _ b _ ub Hlb).
  rewrite (omap_launched_middle _ a _ ua Hla).
  eauto.
Qed.

Lemma downloads_launched_in_reverse_order_witness :
  ∃ t1 t2 t3,
    launchedTasks ["/a.pdf"; "/b.pdf"; "/a.pdf"]
    = t1 ++ "https://www.avient.com/b.pdf" :: t2
         ++ "https://www.avient.com/a.pdf" :: t3.
Proof.
  refine (proj2 (proj2 (downloads_launched_in_reverse_order
           ["/a.pdf"; "/b.pdf"; "/a.pdf"] [] ["/b.pdf"; "/a.pdf"]
           "/a.pdf" "/b.pdf" "https://www.avient.com/a.pdf"
           "https://www.avient.com/b.pdf" eq_refl _ _ _ _ eq_refl eq_refl))).
  - apply not_elem_of_nil.
  - apply not_elem_of_nil.
  - apply list_elem_of_here.
  - discriminate.
Defined.

End DownloadLoop.

(** ** The URL sanitizer *)

Section Sanitizer.

Lemma replace_allowed s :
  ∀ skip, string_forall GoRegexp.allowed (GoRegexp.replace skip s) = true.
Proof.
  induction s as [|c s IH]; intros skip; simpl; [done|].
  destruct skip as [|k]; [|apply IH].
  destruct (is_ascii c); simpl; [|apply IH].
  rewrite IH, andb_true_r. by destruct (GoRegexp.allowed c) eqn:E.
Qed.

Lemma TrimRight_forall P s cutset :
  string_forall P s = true → string_forall P (GoStrings.TrimRight s cutset) = true.
Proof.
  induction s as [|c s IH]; simpl; [done|].
  intros [Hc Hs]%andb_true_iff. specialize (IH Hs).
  destruct (GoStrings.TrimRight s cutset) as [|d t].
  - destruct (inb c cutset); simpl; [done|]. by rewrite Hc.
  - change (string_forall P (String c (String d t))) with
      (P c && string_forall P (String d t)). by rewrite Hc, IH.
Qed.

Lemma TrimLeft_forall P s cutset :
  string_forall P s = true → string_forall P (GoStrings.TrimLeft s cutset) = true.
Proof.
  induction s as [|c s IH]; simpl; [done|].
  intros Hcs. destruct (inb c cutset); [|done].
  apply andb_true_iff in Hcs as [_ Hs]. by apply IH.
Qed.

Lemma lower_byte_filename_char c :
  GoRegexp.allowed c = true → filename_char (GoStrings.lower_byte c) = true.
Proof.
  destruct c as [[] [] [] [] [] [] [] []]; vm_compute; congruence.
Qed.

Lemma ToLower_filename s :
  string_forall GoRegexp.allowed s = true →
  string_forall filename_char (GoStrings.ToLower s) = true.
Proof.
  induction s as [|c s IH]; simpl; [done|].
  intros [Hc Hs]%andb_true_iff.
  by rewrite (lower_byte_filename_char c Hc), IH.
Qed.

(** Whatever the base name, the statements after parsing return a
    non-empty name over [[a-z0-9_.-]]. *)
Lemma sanitizeBaseName_is_filename base :
  is_filename (fst (sanitizeBaseName base)) = true.
Proof.
  unfold sanitizeBaseName.
  destruct (match GoUrl.QueryUnescape base with
            | Some decoded => (decoded, [])
            | None => (EmptyString, [LogErrorDecodingFileName])
            end) as [fileName lg].
  cbv beta iota zeta.
  pose proof (replace_allowed fileName 0) as Hall.
  fold (GoRegexp.ReplaceAllString fileName) in Hall.
  apply (TrimRight_forall _ _ "_"), (TrimLeft_forall _ _ "_") in Hall.
  fold (GoStrings.Trim (GoRegexp.ReplaceAllString fileName) "_") in Hall.
  destruct (String.eqb_spec (GoStrings.Trim (GoRegexp.ReplaceAllString fileName) "_") EmptyString)
    as [Heq|Hne]; simpl; [done|].
  unfold is_filename. rewrite (ToLower_filename _ Hall), andb_true_r.
  destruct (GoStrings.Trim (GoRegexp.ReplaceAllString fileName) "_"); done.
Qed.

(** The sanitizer's output is always a non-empty, lowercase name that
    matches [[a-z0-9_.-]+]. *)
Lemma sanitizeFileNameFromURL_is_filename rawURL :
  is_filename (sanitizeFileNameFromURL rawURL) = true.
Proof.
  unfold sanitizeFileNameFromURL, sanitizeFileNameFromURL_logged.
  destruct (GoUrl.Parse rawURL); [apply sanitizeBaseName_is_filename | done].
Qed.

(** An unparseable string yields exactly [invalid_filename]. *)
Lemma sanitizeFileNameFromURL_unparseable rawURL :
  GoUrl.Parse rawURL = None → sanitizeFileNameFromURL rawURL = "invalid_filename".
Proof.
  intros Hp. unfold sanitizeFileNameFromURL, sanitizeFileNameFromURL_logged.
  by rewrite Hp.
Qed.

Lemma replace_underscores s :
  ∀ skip,
    string_forall (λ c, negb (GoRegexp.allowed c) || Ascii.eqb c "_") s = true →
    string_forall (λ c, Ascii.eqb c "_") (GoRegexp.replace skip s) = true.
Proof.
  induction s as [|c s IH]; intros skip; simpl; [done|].
  intros [Hc Hs]%andb_true_iff.
  destruct skip as [|k]; [|by apply IH].
  destruct (is_ascii c); simpl; [|by apply IH].
  rewrite (IH 0 Hs), andb_true_r.
  destruct (GoRegexp.allowed c); simpl in *; done.
Qed.

Lemma TrimRight_underscores s :
  string_forall (λ c, Ascii.eqb c "_") s = true → GoStrings.TrimRight s "_" = EmptyString.
Proof.
  induction s as [|c s IH]; simpl; [done|].
  intros [Hc Hs]%andb_true_iff. rewrite (IH Hs). simpl. by rewrite Hc.
Qed.

(** A base name that decodes to nothing but disallowed characters (and
    underscores) yields exactly [downloaded_file]. *)
Lemma sanitizeBaseName_only_disallowed base decoded :
  GoUrl.QueryUnescape base = Some decoded →
  string_forall (λ c, negb (GoRegexp.allowed c) || Ascii.eqb c "_") decoded = true →
  fst (sanitizeBaseName base) = "downloaded_file".
Proof.
  intros Hd Hall. unfold sanitizeBaseName. rewrite Hd.
  unfold GoStrings.Trim, GoRegexp.ReplaceAllString.
  by rewrite (TrimRight_underscores _ (replace_underscores _ 0 Hall)).
Qed.

(** When the base name cannot be percent-decoded the function still
    returns, and what it returns is the fallback name. *)
Lemma sanitizeBaseName_undecodable base :
  GoUrl.QueryUnescape base = None →
  sanitizeBaseName base = ("downloaded_file", [LogErrorDecodingFileName]).
Proof. intros Hd. unfold sanitizeBaseName. by rewrite Hd. Qed.

(** C3 (the code departs from the claim).  The last path segment of
    ["https://www.avient.com/100%25.pdf"], a URL the download loop builds
    from the link ["/100%25.pdf"], is ["100%.pdf"]; its percent-decoding
    fails.  The undecoded segment would give ["100_.pdf"], but the failed
    call has overwritten [fileName] with the empty string and the function
    returns the fallback ["downloaded_file"]. *)
Theorem undecodable_segment_is_discarded :
  loopBody "/100%25.pdf" = Launched "https://www.avient.com/100%25.pdf"
  ∧ GoPath.Base <$> (GoUrl.Path <$> GoUrl.Parse "https://www.avient.com/100%25.pdf")
    = Some "100%.pdf"
  ∧ GoUrl.QueryUnescape "100%.pdf" = None
  ∧ GoStrings.ToLower (GoStrings.Trim (GoRegexp.ReplaceAllString "100%.pdf") "_")
    = "100_.pdf"
  ∧ sanitizeFileNameFromURL_logged "https://www.avient.com/100%25.pdf"
    = ("downloaded_file", [LogErrorDecodingFileName]).
Proof. vm_compute. done. Qed.

(** C8 (the code departs from the claim).  A URL with an empty path, such
    as the one the download loop builds from the link ["?x=.pdf"], has no
    last path segment; [path.Base] answers ["."] for it, which survives
    the replacement and the trimming, so the sanitizer returns ["."] and
    not ["downloaded_file"].  (For the path ["/"] it does return
    ["downloaded_file"].) *)
Theorem empty_path_sanitizes_to_dot :
  GoUrl.Path <$> GoUrl.Parse "https://www.avient.com" = Some EmptyString
  ∧ sanitizeFileNameFromURL "https://www.avient.com" = "."
  ∧ loopBody "?x=.pdf" = Launched "https://www.avient.com?x=.pdf"
  ∧ GoUrl.Path <$> GoUrl.Parse "https://www.avient.com?x=.pdf" = Some EmptyString
  ∧ sanitizeFileNameFromURL "https://www.avient.com?x=.pdf" = "."
  ∧ sanitizeFileNameFromURL "https://www.avient.com/" = "downloaded_file".
Proof. vm_compute. done. Qed.

End Sanitizer.

(** ** Link extraction *)

Section LinkExtraction.

Context `{MarkupParser}.

Lemma fold_visitAnchor (selections : list Selection) :
  ∀ pdfLinks lg,
    fst (fold_left visitAnchor selections (pdfLinks, lg))
    = pdfLinks ++ List.filter isPdfHref (omap (λ selection, Attr selection "href") selections).
Proof.
  induction selections as [|sel selections IH]; intros pdfLinks lg.
  - simpl. by rewrite app_nil_r.
  - cbn [fold_left omap list_omap]. unfold visitAnchor at 2.
    destruct (Attr sel "href") as [href|]; [|apply IH].
    cbn [List.filter].
    assert (Hp : isPdfHref href
                 = match GoUrl.QueryUnescape href with
                   | Some decodedHref =>
                       GoStrings.HasSuffix (GoStrings.ToLower decodedHref) ".pdf"
                   | None => false
                   end) by reflexivity.
    destruct (GoUrl.QueryUnescape href) as [decodedHref|];
      rewrite Hp; [|apply IH].
    destruct (GoStrings.HasSuffix (GoStrings.ToLower decodedHref) ".pdf"); [|apply IH].
    rewrite IH, <- app_assoc. done.
Qed.

(** C7.  When the markup parses, [parseHTML] returns the original hrefs
    of exactly the anchors whose percent-decoded, lowercased href ends
    with [".pdf"], in document order; for a document whose anchors carry
    the hrefs ["/doc/A.PDF"], ["/img/b.png"], ["c.pdf"] that is
    [["/doc/A.PDF"; "c.pdf"]]. *)
Theorem parseHTML_returns_pdf_hrefs (htmlContent : string) (doc : Document) :
  NewDocumentFromReader htmlContent = Some doc →
  parseHTML htmlContent = List.filter isPdfHref (anchorHrefs doc)
  ∧ (anchorHrefs doc = ["/doc/A.PDF"; "/img/b.png"; "c.pdf"] →
     parseHTML htmlContent = ["/doc/A.PDF"; "c.pdf"]).
Proof.
  intros Hdoc.
  assert (Heq : parseHTML htmlContent = List.filter isPdfHref (anchorHrefs doc)).
  { unfold parseHTML, parseHTML_logged. rewrite Hdoc. apply fold_visitAnchor. }
  split; [done|]. intros Hh. rewrite Heq, Hh. reflexivity.
Qed.

(** A document that does not parse yields no link. *)
Lemma parseHTML_malformed (htmlContent : string) :
  NewDocumentFromReader htmlContent = None → parseHTML htmlContent = [].
Proof. intros Hdoc. unfold parseHTML, parseHTML_logged. by rewrite Hdoc. Qed.

End LinkExtraction.

Lemma parseHTML_returns_pdf_hrefs_witness :
  @parseHTML (fixedDocument [[("href", "/doc/A.PDF")]; [("href", "/img/b.png")];
                             [("href", "c.pdf")]]) "<a>"
  = ["/doc/A.PDF"; "c.pdf"].
Proof.
  refine (proj2 (@parseHTML_returns_pdf_hrefs
                   (fixedDocument [[("href", "/doc/A.PDF")]; [("href", "/img/b.png")];
                                   [("href", "c.pdf")]])
                   "<a>" _ eq_refl) eq_refl).
Defined.

(** ** Download tasks *)

Section DownloadTask.

Lemma fileExists_logged w lg p : fileExists (logged w lg) p = fileExists w p.
Proof. reflexivity. Qed.

(** C5.  When the sanitized target name already names a file of the
    output directory, [downloadPDF] returns [false] and issues no request
    (and leaves the files as they are). *)
Theorem downloadPDF_skips_existing_file
        (env : DownloadEnv) (finalURL outputDir : string) (w : World) :
  fileExists w (GoFilepath.Join outputDir (sanitizeFileNameFromURL finalURL)) = true →
  fst (downloadPDF env finalURL outputDir w) = false
  ∧ requests (snd (downloadPDF env finalURL outputDir w)) = requests w
  ∧ fs (snd (downloadPDF env finalURL outputDir w)) = fs w.
Proof.
  unfold downloadPDF, sanitizeFileNameFromURL.
  destruct (sanitizeFileNameFromURL_logged finalURL) as [filename lg]. simpl.
  intros Hex. rewrite fileExists_logged, Hex. done.
Qed.

Lemma downloadPDF_skips_existing_file_witness :
  let w := mkWorld {["PDFs/a.pdf" := File "%PDF-1.7"]} [] [] in
  let env := mkDownloadEnv None false None in
  fst (downloadPDF env "https://www.avient.com/a.pdf" "PDFs/" w) = false
  ∧ requests (snd (downloadPDF env "https://www.avient.com/a.pdf" "PDFs/" w)) = []
  ∧ fs (snd (downloadPDF env "https://www.avient.com/a.pdf" "PDFs/" w))
    = {["PDFs/a.pdf" := File "%PDF-1.7"]}.
Proof.
  intros w env.
  apply (downloadPDF_skips_existing_file env "https://www.avient.com/a.pdf" "PDFs/" w).
  vm_compute. reflexivity.
Defined.

(** C6.  A response with status OK and a content type containing
    ["application/pdf"] but an empty body makes [downloadPDF] return
    [false] with the files of the world unchanged: no file is created. *)
Theorem downloadPDF_zero_byte_guard
        (env : DownloadEnv) (resp : Response) (finalURL outputDir : string) (w : World) :
  client_Get env = Some resp →
  StatusCode resp = StatusOK →
  GoStrings.Contains (ContentType resp) "application/pdf" = true →
  String.length (Body resp) = 0 →
  fst (downloadPDF env finalURL outputDir w) = false
  ∧ fs (snd (downloadPDF env finalURL outputDir w)) = fs w.
Proof.
  intros Hget Hst Hct Hlen. unfold downloadPDF.
  destruct (sanitizeFileNameFromURL_logged finalURL) as [filename lg].
  destruct (fileExists _ _); [done|].
  rewrite Hget, Hst, Hct, Hlen. simpl.
  destruct (BodyErr resp); done.
Qed.

Lemma downloadPDF_zero_byte_guard_witness :
  let env := mkDownloadEnv (Some (mkResponse 200 "200 OK" "application/pdf" EmptyString false))
                           false None in
  let w := mkWorld ∅ [] [] in
  fst (downloadPDF env "https://www.avient.com/a.pdf" "PDFs/" w) = false
  ∧ fs (snd (downloadPDF env "https://www.avient.com/a.pdf" "PDFs/" w)) = ∅.
Proof.
  intros env w.
  apply (downloadPDF_zero_byte_guard env
           (mkResponse 200 "200 OK" "application/pdf" EmptyString false)
           "https://www.avient.com/a.pdf" "PDFs/" w);
    reflexivity.
Defined.

(** Unless the write step fails, a call that returns [false] leaves the
    files as they were; in particular a failed [os.Create] leaves no
    entry. *)
Lemma downloadPDF_failure_leaves_files
      (env : DownloadEnv) (finalURL outputDir : string) (w : World) :
  WriteTo_err env = None →
  fst (downloadPDF env finalURL outputDir w) = false →
  fs (snd (downloadPDF env finalURL outputDir w)) = fs w.
Proof.
  intros Hw. unfold downloadPDF.
  destruct (sanitizeFileNameFromURL_logged finalURL) as [filename lg].
  destruct (fileExists _ _); [done|].
  destruct (client_Get env) as [resp|]; [|done].
  destruct (negb _); [done|]. destruct (negb _); [done|].
  destruct (BodyErr resp); [done|]. destruct (_ =? 0)%nat; [done|].
  destruct (_ || _); [done|]. rewrite Hw. simpl. discriminate.
Qed.

(** A call that returns [true] has stored the whole, non-empty body under
    the target name. *)
Lemma downloadPDF_success_stores_body
      (env : DownloadEnv) (finalURL outputDir : string) (w : World) :
  fst (downloadPDF env finalURL outputDir w) = true →
  ∃ resp,
    client_Get env = Some resp ∧ Body resp ≠ EmptyString
    ∧ fs (snd (downloadPDF env finalURL outputDir w))
        !! GoFilepath.Join outputDir (sanitizeFileNameFromURL finalURL)
      = Some (File (Body resp)).
Proof.
  unfold downloadPDF, sanitizeFileNameFromURL.
  destruct (sanitizeFileNameFromURL_logged finalURL) as [filename lg]. simpl.
  destruct (fileExists _ _); [done|].
  destruct (client_Get env) as [resp|]; [|done].
  destruct (negb _); [done|]. destruct (negb _); [done|].
  destruct (BodyErr resp); [done|].
  destruct (String.length (Body resp) =? 0)%nat eqn:Hlen; [done|].
  destruct (_ || _); [done|]. destruct (WriteTo_err env); [done|].
  intros _. exists resp. split; [done|]. split.
  - intros Hb. rewrite Hb in Hlen. done.
  - simpl. apply lookup_insert_eq.
Qed.

(** C2 (the code departs from the claim).  The body ["%PDF-1.7"] arrives
    in full, [os.Create] succeeds and the write fails after four bytes:
    the task logs and returns [false], and the truncated file stays in
    the output directory.  A later task for the same URL then finds the
    file and skips the download without any request. *)
Theorem failed_write_leaves_truncated_file :
  let env := mkDownloadEnv
               (Some (mkResponse 200 "200 OK" "application/pdf" "%PDF-1.7" false))
               false (Some 4) in
  let finalURL := "https://www.avient.com/a.pdf" in
  let w1 := snd (downloadPDF env finalURL "PDFs/" (mkWorld ∅ [] [])) in
  fst (downloadPDF env finalURL "PDFs/" (mkWorld ∅ [] [])) = false
  ∧ log w1 = [LogFailedToWrite finalURL]
  ∧ fs w1 !! "PDFs/a.pdf" = Some (File "%PDF")
  ∧ ∀ env', downloadPDF env' finalURL "PDFs/" w1
            = (false, logged w1 [LogFileExists "PDFs/a.pdf"]).
Proof.
  cbv zeta. split; [vm_compute; done|]. split; [vm_compute; done|].
  split; [vm_compute; done|].
  intros env'. vm_compute. done.
Qed.

End DownloadTask.

(** ** Runs of [main] *)

Section Runs.

Context `{MarkupParser}.

Lemma fetchPage_exit_fs get uri w w' :
  fetchPage get uri w = inl w' → fs w' = fs w.
Proof.
  unfold fetchPage. destruct get as [response|]; [|by intros [= <-]].
  destruct (ReadAll_err response); [by intros [= <-]|].
  destruct (BodyClose_err response); [by intros [= <-]|]. discriminate.
Qed.

Lemma fetchPage_body_fs get uri w body w' :
  fetchPage get uri w = inr (body, w') → fs w' = fs w.
Proof.
  unfold fetchPage. destruct get as [response|]; [|discriminate].
  destruct (ReadAll_err response); [discriminate|].
  destruct (BodyClose_err response); [discriminate|]. by intros [= _ <-].
Qed.

(** A transport error ends the process before anything is written. *)
Lemma getDataFromURL_transport_error env uri localLocationo w :
  ∃ w', getDataFromURL None env uri localLocationo w = Exit w' ∧ fs w' = fs w.
Proof. eexists. split; reflexivity. Qed.

Lemma appendAndWriteToFile_other_files env path content w :
  ∀ w', (appendAndWriteToFile env path content w = Exit w'
         ∨ appendAndWriteToFile env path content w = Return w') →
        ∀ p, p ≠ path → fs w' !! p = fs w !! p.
Proof.
  intros w' Hr p Hp. unfold appendAndWriteToFile in Hr.
  destruct (_ || _).
  { destruct Hr as [[= <-]|[=]]. done. }
  destruct (WriteString_err env).
  { destruct Hr as [[= <-]|[=]]. simpl. by rewrite lookup_insert_ne. }
  destruct (Close_err env); destruct Hr as [Hr|Hr]; inversion Hr; subst;
    simpl; by rewrite lookup_insert_ne.
Qed.

Lemma no_step_after_exit s e s' : running s = false → ¬ step s e s'.
Proof. intros Hr Hs. inversion Hs; congruence. Qed.

Lemma Invariant_initial w0 : Invariant w0 [] (initial w0).
Proof.
  split; simpl; try done.
  - intros _ uri Hin. inversion Hin.
  - intros uri Hin. inversion Hin.
  - intros _ e Hin. inversion Hin.
Qed.

Lemma elem_of_snoc {A} (l : list A) (x y : A) : y ∈ l ++ [x] ↔ y ∈ l ∨ y = x.
Proof. by rewrite elem_of_app, list_elem_of_singleton. Qed.

Lemma Invariant_step w0 tr s e s' :
  Invariant w0 tr s → step s e s' → Invariant w0 (tr ++ [e]) s'.
Proof.
  intros [I1 I2 I3 I4 I5 I6 I7 I8 I9] Hs.
  destruct (crawling (pc s)) eqn:Hc;
    [ specialize (I3 eq_refl); specialize (I4 eq_refl);
      specialize (I5 eq_refl); specialize (I6 eq_refl); clear I7 I8
    | specialize (I7 eq_refl); specialize (I8 eq_refl); clear I3 I4 I5 I6 ].
  all: inversion Hs; subst; clear Hs.
  (* where [main] stands decides which half of the invariant applies *)
  all: try match goal with
           | Hpc : pc _ = _ |- _ =>
               let Hc' := fresh in
               pose proof Hc as Hc'; rewrite Hpc in Hc'; simpl in Hc';
               try discriminate Hc'; clear Hc'
           end.
  (* a goroutine that steps exists *)
  all: try match goal with
           | Ht : pageTasks _ = ?b ++ _ :: _, Hn : pageTasks _ = [] |- _ =>
               rewrite Hn in Ht; destruct b; discriminate
           | Ht : downloadTasks _ = ?b ++ _ :: _, Hn : downloadTasks _ = [] |- _ =>
               rewrite Hn in Ht; destruct b; discriminate
           end.
  all: split; simpl.
  all: try (intros; discriminate).
  all: try (rewrite Hc; intros; discriminate).
  all: try (intros ? uri0 [Hin|Heq]%elem_of_snoc; [by eapply I1 | discriminate]).
  all: try (intros uri0 [Hin|Heq]%elem_of_snoc; [by (exfalso; eapply I1) | discriminate]).
  all: try (intros ? e0 [Hin|Heq]%elem_of_snoc; [by eapply I5 | by subst]).
  all: try done.
  all: try match goal with
           | Hpc : pc ?s = _ |- context [pc ?s] =>
               rewrite Hpc; simpl; intros; discriminate
           end.
  all: try match goal with
           | Ht : pageTasks ?s = ?b ++ _ :: _, I : pc ?s = AtStart → pageTasks ?s = []
             |- pc ?s = AtStart → _ =>
               let Hp := fresh in
               intros Hp; specialize (I Hp); rewrite I in Ht; destruct b; discriminate
           end.
  all: try match goal with
           | Hf : fetchPage _ _ _ = inl _ |- _ → ∀ p, _ → fs _ !! p = _ =>
               intros _ p Hp; rewrite (fetchPage_exit_fs _ _ _ _ Hf); by apply I6
           | Hf : fetchPage _ _ _ = inr _ |- _ → ∀ p, _ → fs _ !! p = _ =>
               intros _ p Hp; rewrite (fetchPage_body_fs _ _ _ _ _ Hf); by apply I6
           | Hf : appendAndWriteToFile _ _ _ _ = _ |- _ → ∀ p, _ → fs _ !! p = _ =>
               intros _ p Hp;
               rewrite (appendAndWriteToFile_other_files _ _ _ _ _ ltac:(eauto) p Hp);
               by apply I6
           end.
  - intros _. by apply I9.
  - intros _. by apply I9.
  - intros _. rewrite length_app, I3. simpl. lia.
  - intros _. destruct (pageTasks s); [done|]. simpl in I3. congruence.
  - intros uri0 [Hin|Heq]%elem_of_snoc; [exfalso; by eapply I1|].
    injection Heq as ->. eauto.
  - intros _. rewrite I3.
    match goal with Ht : pageTasks _ = _ |- _ => rewrite Ht end.
    by rewrite !length_app.
  - intros _. rewrite I3.
    match goal with Ht : pageTasks _ = _ |- _ => rewrite Ht end.
    rewrite !length_app. simpl. lia.
Qed.

Lemma Invariant_run w0 tr s : run (initial w0) tr s → Invariant w0 tr s.
Proof.
  induction 1 as [|tr s e s' _ IH Hs]; [apply Invariant_initial|].
  by apply (Invariant_step w0 tr s e s').
Qed.

(** C4.  A transport error of a page fetch ends the process at once
    ([getDataFromURL] exits before it writes anything), and in every run
    of [main] in which a page fetch meets one, that error is the last
    thing that happens: the process has stopped, no step of the download
    stage has been taken, and every file other than the aggregate
    artifact is as it was at the start, so no output file was written. *)
Theorem transport_error_aborts_run
        (w0 : World) (tr : list Event) (s : State) (uri : string) :
  run (initial w0) tr s → EvTransportError uri ∈ tr →
  (∀ env u loc w, ∃ w', getDataFromURL None env u loc w = Exit w' ∧ fs w' = fs w)
  ∧ running s = false
  ∧ (∃ tr0, tr = tr0 ++ [EvTransportError uri])
  ∧ (∀ e s', ¬ step s e s')
  ∧ (∀ e, e ∈ tr → downloadStageEvent e = false)
  ∧ (∀ p, p ≠ localLocation → fs (world s) !! p = fs w0 !! p).
Proof.
  intros Hrun Hin. destruct (Invariant_run w0 tr s Hrun) as [I1 I2 I3 I4 I5 I6 I7 I8 I9].
  assert (Hstop : running s = false).
  { destruct (running s) eqn:Hr; [|done]. exfalso. by eapply I1. }
  assert (Hc : crawling (pc s) = true).
  { destruct (crawling (pc s)) eqn:Hc; [done|]. exfalso. by eapply I8. }
  split; [intros; apply getDataFromURL_transport_error|].
  split; [done|]. split; [by apply I2|].
  split; [intros e s'; by apply no_step_after_exit|].
  split; [by apply I5 | by apply I6].
Qed.

End Runs.

(** A run in which the first page fetch meets a transport error. *)
Lemma transport_error_aborts_run_witness :
  let P := fixedDocument [] in
  let w0 := mkWorld ∅ [] [] in
  let s1 := mkState (AtPageLoop 0) w0 0 [] 0 [] true in
  let s2 := mkState (AtPageLoop 1) w0 1 [Fetching (pageURL 0)] 0 [] true in
  let s3 := exited s2 (logged (requested (logged w0 [LogScraping (pageURL 0)])
                                         (pageURL 0)) [LogFatal]) in
  @run P (initial w0)
       [EvCrawlNeeded true; EvPageLaunched (pageURL 0); EvTransportError (pageURL 0)] s3
  ∧ running s3 = false
  ∧ ∀ p, p ≠ localLocation → fs (world s3) !! p = fs w0 !! p.
Proof.
  intros P w0 s1 s2 s3.
  assert (Hrun : @run P (initial w0)
            [EvCrawlNeeded true; EvPageLaunched (pageURL 0); EvTransportError (pageURL 0)] s3).
  { apply (@run_step P (initial w0) [EvCrawlNeeded true; EvPageLaunched (pageURL 0)] s2).
    - apply (@run_step P (initial w0) [EvCrawlNeeded true] s1).
      + apply (@run_step P (initial w0) [] (initial w0)); [apply run_nil|].
        apply (@step_start P (initial w0)); reflexivity.
      + apply (@step_launch_page P s1 0); [reflexivity | reflexivity | apply Nat.le_0_l].
    - apply (@step_transport_error P s2 [] (pageURL 0) []); reflexivity. }
  split; [exact Hrun|].
  destruct (@transport_error_aborts_run P w0 _ s3 (pageURL 0) Hrun)
    as (_ & Hstop & _ & _ & _ & Hfiles).
  - apply list_elem_of_In. simpl. auto.
  - split; [exact Hstop | exact Hfiles].
Defined.

(** ** More on the URL sanitizer *)

Section SanitizerFixedPoints.

Lemma string_forall_chars (P Q : ascii → bool) s :
  (∀ c, P c = true → Q c = true) →
  string_forall P s = true → string_forall Q s = true.
Proof.
  intros HPQ. induction s as [|c s IH]; simpl; [done|].
  intros [Hc Hs]%andb_true_iff. by rewrite (HPQ c Hc), IH.
Qed.

Lemma filename_char_cases c :
  filename_char c = true →
  c ≠ "%"%char ∧ c ≠ "+"%char ∧ is_ascii c = true ∧ GoRegexp.allowed c = true
  ∧ GoStrings.lower_byte c = c.
Proof.
  destruct c as [[] [] [] [] [] [] [] []]; vm_compute; intros Hc;
    try discriminate Hc; repeat split; discriminate.
Qed.

Lemma unescape_valid_plain c s mode :
  c ≠ "%"%char → c ≠ "+"%char →
  GoUrl.unescape_valid (String c s) GoUrl.encodeQueryComponent
  = GoUrl.unescape_valid s GoUrl.encodeQueryComponent
  ∧ GoUrl.unescape_build (String c s) mode = String c (GoUrl.unescape_build s mode).
Proof.
  intros Hp Hq.
  destruct c as [[] [] [] [] [] [] [] []]; try done; split; reflexivity.
Qed.

Lemma QueryUnescape_plain s :
  string_forall filename_char s = true → GoUrl.QueryUnescape s = Some s.
Proof.
  unfold GoUrl.QueryUnescape, GoUrl.unescape.
  induction s as [|c s IH]; [done|].
  intros [Hc Hs]%andb_true_iff.
  destruct (filename_char_cases c Hc) as (Hp & Hq & _).
  destruct (unescape_valid_plain c s GoUrl.encodeQueryComponent Hp Hq) as [-> ->].
  specialize (IH Hs).
  destruct (GoUrl.unescape_valid s GoUrl.encodeQueryComponent); [|done].
  by injection IH as ->.
Qed.

Lemma replace_plain s :
  string_forall filename_char s = true → GoRegexp.ReplaceAllString s = s.
Proof.
  unfold GoRegexp.ReplaceAllString.
  induction s as [|c s IH]; [done|].
  intros [Hc Hs]%andb_true_iff. simpl.
  destruct (filename_char_cases c Hc) as (_ & _ & -> & -> & _).
  by rewrite (IH Hs).
Qed.

Lemma ToLower_plain s :
  string_forall filename_char s = true → GoStrings.ToLower s = s.
Proof.
  induction s as [|c s IH]; [done|].
  intros [Hc Hs]%andb_true_iff. simpl.
  destruct (filename_char_cases c Hc) as (_ & _ & _ & _ & ->).
  by rewrite (IH Hs).
Qed.

Lemma HasSuffix_last_byte s c :
  GoStrings.HasSuffix s (String c EmptyString)
  = match last_byte s with Some d => Ascii.eqb d c | None => false end.
Proof.
  unfold GoStrings.HasSuffix.
  induction s as [|a s IH]; [done|].
  destruct s as [|b s].
  - simpl. by destruct (Ascii.eqb a c).
  - change (last_byte (String a (String b s))) with (last_byte (String b s)).
    rewrite <- IH. simpl. by rewrite !Nat.sub_0_r.
Qed.

Lemma HasPrefix_byte s c :
  GoStrings.HasPrefix s (String c EmptyString)
  = match s with String d _ => Ascii.eqb d c | EmptyString => false end.
Proof.
  unfold GoStrings.HasPrefix. destruct s as [|d s]; [done|]. simpl.
  destruct (ascii_dec c d) as [->|Hne].
  - rewrite Ascii.eqb_refl. by destruct s.
  - destruct (Ascii.eqb_spec d c); congruence.
Qed.

Lemma TrimRight_no_suffix s c :
  GoStrings.HasSuffix s (String c EmptyString) = false →
  GoStrings.TrimRight s (String c EmptyString) = s.
Proof.
  rewrite HasSuffix_last_byte.
  induction s as [|a s IH]; [done|].
  destruct s as [|b s].
  - simpl. intros ->. done.
  - change (last_byte (String a (String b s))) with (last_byte (String b s)).
    intros Hl. specialize (IH Hl).
    change (GoStrings.TrimRight (String a (String b s)) (String c EmptyString))
      with (match GoStrings.TrimRight (String b s) (String c EmptyString) with
            | EmptyString =>
                if inb a (String c EmptyString) then EmptyString
                else String a EmptyString
            | t => String a t
            end).
    by rewrite IH.
Qed.

Lemma TrimLeft_no_prefix s c :
  GoStrings.HasPrefix s (String c EmptyString) = false →
  GoStrings.TrimLeft s (String c EmptyString) = s.
Proof.
  rewrite HasPrefix_byte. destruct s as [|d s]; [done|]. simpl.
  intros ->. done.
Qed.

Lemma Trim_clean s c :
  GoStrings.HasPrefix s (String c EmptyString) = false →
  GoStrings.HasSuffix s (String c EmptyString) = false →
  GoStrings.Trim s (String c EmptyString) = s.
Proof.
  intros Hp Hs. unfold GoStrings.Trim.
  by rewrite (TrimRight_no_suffix s c Hs), (TrimLeft_no_prefix s c Hp).
Qed.

Lemma sanitizeBaseName_clean base :
  is_clean_name base = true → sanitizeBaseName base = (base, []).
Proof.
  unfold is_clean_name, is_filename.
  intros [[[Hne Hall]%andb_true_iff Hp%negb_true_iff]%andb_true_iff
            Hs%negb_true_iff]%andb_true_iff.
  unfold sanitizeBaseName.
  rewrite (QueryUnescape_plain base Hall), (replace_plain base Hall).
  rewrite (Trim_clean base "_" Hp Hs), (ToLower_plain base Hall).
  by apply negb_true_iff in Hne as ->.
Qed.

Lemma last_byte_TrimRight s c :
  last_byte (GoStrings.TrimRight s (String c EmptyString)) ≠ Some c.
Proof.
  induction s as [|a s IH]; [done|].
  change (GoStrings.TrimRight (String a s) (String c EmptyString))
    with (match GoStrings.TrimRight s (String c EmptyString) with
          | EmptyString =>
              if inb a (String c EmptyString) then EmptyString
              else String a EmptyString
          | t => String a t
          end).
  destruct (GoStrings.TrimRight s (String c EmptyString)) as [|b t].
  - simpl. destruct (Ascii.eqb_spec a c) as [->|Hne]; simpl; [done|].
    by intros [= ->].
  - exact IH.
Qed.

Lemma last_byte_TrimLeft s cutset :
  last_byte (GoStrings.TrimLeft s cutset) = None
  ∨ last_byte (GoStrings.TrimLeft s cutset) = last_byte s.
Proof.
  induction s as [|a s IH]; [by left|]. simpl.
  destruct (inb a cutset); [|by right].
  destruct IH as [IH|IH]; [by left|]. rewrite IH.
  destruct s; [by left | by right].
Qed.

Lemma HasPrefix_TrimLeft s c :
  GoStrings.HasPrefix (GoStrings.TrimLeft s (String c EmptyString)) (String c EmptyString)
  = false.
Proof.
  rewrite HasPrefix_byte. induction s as [|a s IH]; [done|]. simpl.
  destruct (Ascii.eqb a c) eqn:E; simpl; [exact IH | exact E].
Qed.

Lemma lower_byte_underscore c :
  Ascii.eqb (GoStrings.lower_byte c) "_" = Ascii.eqb c "_".
Proof. destruct c as [[] [] [] [] [] [] [] []]; reflexivity. Qed.

Lemma last_byte_ToLower s :
  last_byte (GoStrings.ToLower s) = GoStrings.lower_byte <$> last_byte s.
Proof.
  induction s as [|a s IH]; [done|].
  destruct s as [|b s]; [done|].
  change (last_byte (GoStrings.ToLower (String b s))
          = GoStrings.lower_byte <$> last_byte (String b s)) in IH.
  exact IH.
Qed.

Lemma Trim_no_edge s c :
  GoStrings.HasPrefix (GoStrings.Trim s (String c EmptyString)) (String c EmptyString) = false
  ∧ GoStrings.HasSuffix (GoStrings.Trim s (String c EmptyString)) (String c EmptyString) = false.
Proof.
  unfold GoStrings.Trim. split; [apply HasPrefix_TrimLeft|].
  rewrite HasSuffix_last_byte.
  destruct (last_byte_TrimLeft (GoStrings.TrimRight s (String c EmptyString))
                               (String c EmptyString)) as [->| ->]; [done|].
  pose proof (last_byte_TrimRight s c) as Hl.
  destruct (last_byte _) as [d|]; [|done].
  destruct (Ascii.eqb_spec d c) as [->|]; done.
Qed.

(** What the sanitizer returns for a base name is a clean name. *)
Lemma sanitizeBaseName_output_clean base :
  is_clean_name (fst (sanitizeBaseName base)) = true.
Proof.
  unfold is_clean_name. rewrite sanitizeBaseName_is_filename. simpl.
  unfold sanitizeBaseName.
  destruct (match GoUrl.QueryUnescape base with
            | Some decoded => (decoded, [])
            | None => (EmptyString, [LogErrorDecodingFileName])
            end) as [fileName lg].
  cbv beta iota zeta.
  destruct (Trim_no_edge (GoRegexp.ReplaceAllString fileName) "_") as [Hp Hs].
  destruct (String.eqb _ EmptyString); [done|].
  cbn [fst]. apply andb_true_iff. split; apply negb_true_iff.
  - rewrite HasPrefix_byte in *.
    destruct (GoStrings.Trim (GoRegexp.ReplaceAllString fileName) "_") as [|d t]; [done|].
    simpl. by rewrite lower_byte_underscore.
  - rewrite HasSuffix_last_byte in *. rewrite last_byte_ToLower.
    destruct (last_byte _) as [d|]; [|done]. simpl. by rewrite lower_byte_underscore.
Qed.

(** X1.  A clean base name comes back unchanged, without a log line. *)
Theorem clean_base_name_is_kept base :
  is_clean_name base = true → sanitizeBaseName base = (base, []).
Proof. apply sanitizeBaseName_clean. Qed.

Lemma clean_base_name_is_kept_witness :
  sanitizeBaseName "sds_123-a.pdf" = ("sds_123-a.pdf", []).
Proof. apply (clean_base_name_is_kept "sds_123-a.pdf"). reflexivity. Defined.

(** X2.  Sanitizing is idempotent: applied to its own output it changes nothing and
    logs nothing. *)
Theorem sanitizeBaseName_idempotent base :
  sanitizeBaseName (fst (sanitizeBaseName base)) = (fst (sanitizeBaseName base), []).
Proof. apply sanitizeBaseName_clean, sanitizeBaseName_output_clean. Qed.

(** X3.  Whatever string it is given, the sanitizer returns a non-empty name over
    [[a-z0-9_.-]] that neither begins nor ends with an underscore; in
    particular the name holds no path separator. *)
Theorem sanitizer_output_is_clean rawURL :
  is_clean_name (sanitizeFileNameFromURL rawURL) = true
  ∧ string_forall (λ c, negb (Ascii.eqb c "/")) (sanitizeFileNameFromURL rawURL) = true.
Proof.
  assert (Hclean : is_clean_name (sanitizeFileNameFromURL rawURL) = true).
  { unfold sanitizeFileNameFromURL, sanitizeFileNameFromURL_logged.
    destruct (GoUrl.Parse rawURL); [apply sanitizeBaseName_output_clean | done]. }
  split; [done|].
  unfold is_clean_name, is_filename in Hclean.
  apply andb_true_iff in Hclean as [[[_ Hall]%andb_true_iff _]%andb_true_iff _].
  revert Hall. apply string_forall_chars. intros c Hc.
  destruct (Ascii.eqb_spec c "/") as [->|]; [discriminate Hc | done].
Qed.

(** X4.  A URL whose base name decodes to nothing but characters outside
    [[A-Za-z0-9.-]] gets the fallback name. *)
Theorem disallowed_only_name_falls_back rawURL parsedURL decoded :
  GoUrl.Parse rawURL = Some parsedURL →
  GoUrl.QueryUnescape (GoPath.Base (GoUrl.Path parsedURL)) = Some decoded →
  string_forall (λ c, negb (GoRegexp.allowed c) || Ascii.eqb c "_") decoded = true →
  sanitizeFileNameFromURL rawURL = "downloaded_file".
Proof.
  intros Hparse Hdec Hall.
  unfold sanitizeFileNameFromURL, sanitizeFileNameFromURL_logged. rewrite Hparse.
  by apply (sanitizeBaseName_only_disallowed _ decoded).
Qed.

Lemma disallowed_only_name_falls_back_witness :
  sanitizeFileNameFromURL "https://www.avient.com/docs/%20(%40)_" = "downloaded_file".
Proof.
  apply (disallowed_only_name_falls_back "https://www.avient.com/docs/%20(%40)_"
           (GoUrl.mkURL "https" EmptyString None "www.avient.com" "/docs/ (@)_"
                        EmptyString EmptyString)
           " (@)_"); reflexivity.
Defined.

End SanitizerFixedPoints.

(** ** The ordinary case, end to end *)

Section OrdinaryLinks.

Lemma string_forall_app P s1 s2 :
  string_forall P (s1 +:+ s2) = string_forall P s1 && string_forall P s2.
Proof. induction s1 as [|c s1 IH]; simpl; [done|]. by rewrite IH, andb_assoc. Qed.

Lemma filename_char_not c d :
  filename_char c = true → filename_char d = false → Ascii.eqb c d = false.
Proof.
  intros Hc Hd. destruct (Ascii.eqb_spec c d) as [->|]; [congruence|done].
Qed.

Lemma Index_byte_none s c :
  string_forall (λ d, negb (Ascii.eqb d c)) s = true →
  GoStrings.Index s (String c EmptyString) = None.
Proof.
  induction s as [|d s IH]; [done|].
  intros [Hd Hs]%andb_true_iff. apply negb_true_iff in Hd.
  cbn [GoStrings.Index String.prefix].
  destruct (ascii_dec c d) as [->|_]; [by rewrite Ascii.eqb_refl in Hd|].
  by rewrite (IH Hs).
Qed.

Lemma prefix_empty s : String.prefix EmptyString s = true.
Proof. by destruct s. Qed.

Lemma Index_cons d s c :
  GoStrings.Index (String d s) (String c EmptyString)
  = if Ascii.eqb d c then Some 0
    else option_map S (GoStrings.Index s (String c EmptyString)).
Proof.
  cbn [GoStrings.Index].
  change (String.prefix (String c EmptyString) (String d s))
    with (GoStrings.HasPrefix (String d s) (String c EmptyString)).
  by rewrite HasPrefix_byte.
Qed.

Lemma Index_byte_first s1 s2 c :
  string_forall (λ d, negb (Ascii.eqb d c)) s1 = true →
  GoStrings.Index (s1 +:+ String c s2) (String c EmptyString) = Some (String.length s1).
Proof.
  induction s1 as [|d s1 IH].
  - intros _. change (EmptyString +:+ String c s2) with (String c s2).
    by rewrite Index_cons, Ascii.eqb_refl.
  - intros [Hd Hs]%andb_true_iff. apply negb_true_iff in Hd.
    change (String d s1 +:+ String c s2) with (String d (s1 +:+ String c s2)).
    by rewrite Index_cons, Hd, (IH Hs).
Qed.

Lemma LastIndex_byte_none s c :
  string_forall (λ d, negb (Ascii.eqb d c)) s = true →
  GoStrings.LastIndex s (String c EmptyString) = None.
Proof.
  induction s as [|d s IH]; [done|].
  intros [Hd Hs]%andb_true_iff. apply negb_true_iff in Hd.
  cbn [GoStrings.LastIndex String.prefix]. rewrite (IH Hs).
  destruct (ascii_dec c d) as [->|_]; [by rewrite Ascii.eqb_refl in Hd|done].
Qed.

Lemma filename_lacks s c :
  filename_char c = false →
  string_forall filename_char s = true →
  string_forall (λ d, negb (Ascii.eqb d c)) s = true.
Proof.
  intros Hc. apply string_forall_chars. intros d Hd.
  by rewrite (filename_char_not d c Hd Hc).
Qed.

Lemma CTLByte_app s1 s2 :
  GoUrl.stringContainsCTLByte (s1 +:+ s2)
  = GoUrl.stringContainsCTLByte s1 || GoUrl.stringContainsCTLByte s2.
Proof. induction s1 as [|c s1 IH]; simpl; [done|]. by rewrite IH, !orb_assoc. Qed.

Lemma filename_char_not_CTL c :
  filename_char c = true → (nat_of_ascii c <? 32)%nat || Ascii.eqb c "127" = false.
Proof. destruct c as [[] [] [] [] [] [] [] []]; vm_compute; congruence. Qed.

Lemma filename_no_CTLByte s :
  string_forall filename_char s = true → GoUrl.stringContainsCTLByte s = false.
Proof.
  induction s as [|c s IH]; simpl; [done|].
  intros [Hc Hs]%andb_true_iff. by rewrite (filename_char_not_CTL c Hc), IH.
Qed.

Lemma last_byte_app s1 s2 :
  s2 ≠ EmptyString → last_byte (s1 +:+ s2) = last_byte s2.
Proof.
  intros Hne. induction s1 as [|c s1 IH]; [done|].
  simpl. rewrite IH. destruct (s1 +:+ s2) eqn:E; [|done].
  destruct s1; simpl in E; [done|discriminate].
Qed.

Lemma last_byte_forall P s d :
  string_forall P s = true → last_byte s = Some d → P d = true.
Proof.
  induction s as [|c s IH]; [done|].
  intros [Hc Hs]%andb_true_iff. destruct s as [|b s].
  - by intros [= <-].
  - intros Hl. by apply IH.
Qed.

Lemma filename_HasSuffix s1 s2 c :
  filename_char c = false → s2 ≠ EmptyString →
  string_forall filename_char s2 = true →
  GoStrings.HasSuffix (s1 +:+ s2) (String c EmptyString) = false.
Proof.
  intros Hc Hne Hall. rewrite HasSuffix_last_byte, last_byte_app by done.
  destruct (last_byte s2) as [d|] eqn:Hl; [|done].
  apply filename_char_not; [|done]. by apply (last_byte_forall _ s2).
Qed.

Lemma unescape_path_plain c s :
  c ≠ "%"%char →
  GoUrl.unescape_valid (String c s) GoUrl.encodePath
  = GoUrl.unescape_valid s GoUrl.encodePath
  ∧ GoUrl.unescape_build (String c s) GoUrl.encodePath
    = String c (GoUrl.unescape_build s GoUrl.encodePath).
Proof.
  intros Hp. destruct c as [[] [] [] [] [] [] [] []]; try done; split; reflexivity.
Qed.

Lemma unescape_path_filename s :
  string_forall filename_char s = true → GoUrl.unescape s GoUrl.encodePath = Some s.
Proof.
  unfold GoUrl.unescape. induction s as [|c s IH]; [done|].
  intros [Hc Hs]%andb_true_iff.
  destruct (filename_char_cases c Hc) as (Hp & _).
  destruct (unescape_path_plain c s Hp) as [-> ->].
  specialize (IH Hs).
  destruct (GoUrl.unescape_valid s GoUrl.encodePath); [|done].
  by injection IH as ->.
Qed.

(** The URL the download loop builds from the link ["/" +:+ name], for a
    name over [[a-z0-9_.-]], parses (as a URL and as a request URI) into the
    origin's host and the path ["/" +:+ name]. *)
Lemma parse_origin_name name viaRequest :
  string_forall filename_char name = true → name ≠ EmptyString →
  GoUrl.parse (origin +:+ "/" +:+ name) viaRequest
  = Some (GoUrl.mkURL "https" EmptyString None "www.avient.com" ("/" +:+ name)
                      EmptyString EmptyString).
Proof.
  intros Hall Hne.
  assert (Hctl : GoUrl.stringContainsCTLByte (origin +:+ "/" +:+ name) = false).
  { by rewrite !CTLByte_app, (filename_no_CTLByte name Hall). }
  assert (Hsch : GoUrl.getScheme (origin +:+ "/" +:+ name)
                 = Some ("https", "//www.avient.com" +:+ "/" +:+ name)) by reflexivity.
  assert (Hsuf : GoStrings.HasSuffix ("//www.avient.com" +:+ "/" +:+ name) "?" = false).
  { change ("//www.avient.com" +:+ "/" +:+ name) with ("//www.avient.com/" +:+ name).
    by apply filename_HasSuffix. }
  assert (Hcut : GoStrings.Cut ("//www.avient.com" +:+ "/" +:+ name) "?"
                 = ("//www.avient.com" +:+ "/" +:+ name, EmptyString, false)).
  { unfold GoStrings.Cut. rewrite Index_byte_none; [done|].
    rewrite !string_forall_app, (filename_lacks name "?" eq_refl Hall). done. }
  assert (Hpath : GoUrl.unescape ("/" +:+ name) GoUrl.encodePath = Some ("/" +:+ name)).
  { unfold GoUrl.unescape.
    destruct (unescape_path_plain "/" name ltac:(discriminate)) as [Hv Hb].
    change ("/" +:+ name) with (String "/" name). rewrite Hv, Hb.
    pose proof (unescape_path_filename name Hall) as Hn. unfold GoUrl.unescape in Hn.
    destruct (GoUrl.unescape_valid name GoUrl.encodePath); [|done].
    by injection Hn as ->. }
  unfold GoUrl.parse. rewrite Hctl, Hsch.
  change (String.eqb (origin +:+ "/" +:+ name) EmptyString) with false.
  change (String.eqb (origin +:+ "/" +:+ name) "*") with false.
  cbv beta iota zeta. rewrite Hsuf, Hcut. cbn [andb].
  change (GoStrings.ToLower "https") with "https".
  change (GoStrings.HasPrefix ("//www.avient.com" +:+ "/" +:+ name) "/") with true.
  change (GoStrings.HasPrefix ("//www.avient.com" +:+ "/" +:+ name) "//") with true.
  change (String.eqb "https" EmptyString) with false.
  cbn [negb andb orb].
  change (GoStrings.drop 2 ("//www.avient.com" +:+ "/" +:+ name))
    with ("www.avient.com" +:+ "/" +:+ name).
  change ("www.avient.com" +:+ "/" +:+ name) with ("www.avient.com" +:+ String "/" name).
  rewrite (Index_byte_first "www.avient.com" name "/" eq_refl).
  change (String.length "www.avient.com") with 14.
  change (GoStrings.take 14 ("www.avient.com" +:+ String "/" name)) with "www.avient.com".
  change (GoStrings.drop 14 ("www.avient.com" +:+ String "/" name)) with ("/" +:+ name).
  change (GoUrl.parseAuthority "www.avient.com") with (Some (@None (string * option string), "www.avient.com")).
  by rewrite Hpath.
Qed.

Lemma Parse_origin_name name :
  string_forall filename_char name = true → name ≠ EmptyString →
  GoUrl.Parse (origin +:+ "/" +:+ name)
  = Some (GoUrl.mkURL "https" EmptyString None "www.avient.com" ("/" +:+ name)
                      EmptyString EmptyString).
Proof.
  intros Hall Hne. unfold GoUrl.Parse.
  assert (Hcut : GoStrings.Cut (origin +:+ "/" +:+ name) "#"
                 = (origin +:+ "/" +:+ name, EmptyString, false)).
  { unfold GoStrings.Cut. rewrite Index_byte_none; [done|].
    rewrite !string_forall_app, (filename_lacks name "#" eq_refl Hall). done. }
  rewrite Hcut. by rewrite (parse_origin_name name false Hall Hne).
Qed.

Lemma Base_slash_name name :
  string_forall filename_char name = true → name ≠ EmptyString →
  GoPath.Base ("/" +:+ name) = name.
Proof.
  intros Hall Hne. unfold GoPath.Base, GoPath.stripTrailingSlashes.
  change (String.eqb ("/" +:+ name) EmptyString) with false. cbv iota.
  rewrite TrimRight_no_suffix by (by apply filename_HasSuffix).
  change ("/" +:+ name) with (String "/" name).
  cbn [GoStrings.LastIndex].
  rewrite (LastIndex_byte_none name "/") by (by apply filename_lacks).
  change (String.prefix "/" (String "/" name))
    with (GoStrings.HasPrefix (String "/" name) "/").
  rewrite HasPrefix_byte. cbn [Ascii.eqb Bool.eqb]. cbv iota.
  change (GoStrings.drop (0 + 1) (String "/" name)) with name.
  destruct name; done.
Qed.

Lemma string_of_list_ascii_snoc l c s :
  string_of_list_ascii (l ++ [c]) +:+ s = string_of_list_ascii l +:+ String c s.
Proof.
  induction l as [|d l IH]; [done|].
  change (String d (string_of_list_ascii (l ++ [c]) +:+ s)
          = String d (string_of_list_ascii l +:+ String c s)).
  by rewrite IH.
Qed.

Lemma append_nil_r s : s +:+ EmptyString = s.
Proof.
  induction s as [|c s IH]; [done|].
  change (String c (s +:+ EmptyString) = String c s). by rewrite IH.
Qed.

Lemma elements_no_slash s :
  ∀ cur, string_forall (λ d, negb (Ascii.eqb d "/")) s = true →
         GoFilepath.elements s cur = [string_of_list_ascii (rev cur) +:+ s].
Proof.
  induction s as [|c s IH]; intros cur.
  - intros _. cbn [GoFilepath.elements]. by rewrite append_nil_r.
  - intros [Hc Hs]%andb_true_iff. apply negb_true_iff in Hc.
    cbn [GoFilepath.elements]. rewrite Hc, (IH _ Hs).
    cbn [rev]. by rewrite string_of_list_ascii_snoc.
Qed.

Lemma elements_slash s1 s2 :
  ∀ cur, string_forall (λ d, negb (Ascii.eqb d "/")) s1 = true →
         GoFilepath.elements (s1 +:+ String "/" s2) cur
         = (string_of_list_ascii (rev cur) +:+ s1) :: GoFilepath.elements s2 [].
Proof.
  induction s1 as [|c s1 IH]; intros cur.
  - intros _. change (EmptyString +:+ String "/" s2) with (String "/" s2).
    cbn [GoFilepath.elements]. change (Ascii.eqb "/" "/") with true. cbv iota.
    by rewrite append_nil_r.
  - intros [Hc Hs]%andb_true_iff. apply negb_true_iff in Hc.
    change (String c s1 +:+ String "/" s2) with (String c (s1 +:+ String "/" s2)).
    cbn [GoFilepath.elements]. rewrite Hc, (IH _ Hs).
    cbn [rev]. by rewrite string_of_list_ascii_snoc.
Qed.

(** Joined to the output directory, a name without a slash that is neither
    ["."] nor [".."] names a direct child of the directory. *)
Lemma Join_outputDir name :
  string_forall (λ d, negb (Ascii.eqb d "/")) name = true →
  name ≠ EmptyString → name ≠ "." → name ≠ ".." →
  GoFilepath.Join outputDir name = outputDir +:+ name.
Proof.
  intros Hall Hne Hdot Hdotdot.
  unfold GoFilepath.Join, outputDir.
  change (String.eqb "PDFs/" EmptyString) with false. cbv iota beta. cbn [negb].
  unfold GoFilepath.Clean.
  change (String.eqb ("PDFs/" +:+ "/" +:+ name) EmptyString) with false.
  change (GoStrings.HasPrefix ("PDFs/" +:+ "/" +:+ name) "/") with false.
  cbv iota beta zeta.
  change ("PDFs/" +:+ "/" +:+ name) with ("PDFs" +:+ String "/" (EmptyString +:+ String "/" name)).
  rewrite (elements_slash "PDFs" _ [] eq_refl).
  rewrite (elements_slash EmptyString name [] eq_refl).
  rewrite (elements_no_slash name [] Hall).
  change (string_of_list_ascii (rev []) +:+ "PDFs") with "PDFs".
  change (string_of_list_ascii (rev []) +:+ EmptyString) with EmptyString.
  change (string_of_list_ascii (rev []) +:+ name) with name.
  cbn [GoFilepath.clean_elements].
  change (String.eqb "PDFs" EmptyString || String.eqb "PDFs" ".") with false.
  change (String.eqb "PDFs" "..") with false.
  change (String.eqb EmptyString EmptyString || String.eqb EmptyString ".") with true.
  cbv iota.
  apply String.eqb_neq in Hne, Hdot, Hdotdot. rewrite Hne, Hdot, Hdotdot.
  cbn [orb rev app GoFilepath.join_elements].
  change ("PDFs" +:+ "/" +:+ name) with (String "P" (String "D" (String "F" (String "s" (String "/" name))))).
  cbn [String.eqb Ascii.eqb]. done.
Qed.

Lemma clean_name_parts name :
  is_clean_name name = true →
  string_forall filename_char name = true ∧ name ≠ EmptyString.
Proof.
  unfold is_clean_name, is_filename.
  intros [[[Hne Hall]%andb_true_iff _]%andb_true_iff _]%andb_true_iff.
  split; [done|]. intros ->. done.
Qed.

(** X5.  A relative link ["/" +:+ name] whose name is over [[a-z0-9_.-]] is
    resolved against the origin, passes validation and gets its download
    task. *)
Theorem ordinary_link_is_launched name :
  string_forall filename_char name = true → name ≠ EmptyString →
  loopBody ("/" +:+ name) = Launched (origin +:+ "/" +:+ name).
Proof.
  intros Hall Hne. unfold loopBody, resolveURL.
  change (GoStrings.HasPrefix ("/" +:+ name) origin) with false. cbn [negb].
  unfold isUrlValid, GoUrl.ParseRequestURI.
  by rewrite (parse_origin_name name true Hall Hne).
Qed.

Lemma ordinary_link_is_launched_witness :
  loopBody "/sds_123-a.pdf" = Launched "https://www.avient.com/sds_123-a.pdf".
Proof.
  apply (ordinary_link_is_launched "sds_123-a.pdf"); [reflexivity | discriminate].
Defined.

Lemma ordinary_url_name_logged name :
  is_clean_name name = true →
  sanitizeFileNameFromURL_logged (origin +:+ "/" +:+ name) = (name, []).
Proof.
  intros Hclean. destruct (clean_name_parts name Hclean) as [Hall Hne].
  unfold sanitizeFileNameFromURL_logged.
  rewrite (Parse_origin_name name Hall Hne). cbn [GoUrl.Path].
  rewrite (Base_slash_name name Hall Hne). by apply sanitizeBaseName_clean.
Qed.

(** X6.  For the URL of such a link the sanitizer returns the name itself, and
    logs nothing, when the name neither begins nor ends with an
    underscore. *)
Theorem ordinary_url_keeps_its_name name :
  is_clean_name name = true →
  sanitizeFileNameFromURL_logged (origin +:+ "/" +:+ name) = (name, []).
Proof.
  apply ordinary_url_name_logged.
Qed.

Lemma ordinary_url_keeps_its_name_witness :
  sanitizeFileNameFromURL_logged "https://www.avient.com/sds_123-a.pdf"
  = ("sds_123-a.pdf", []).
Proof. apply (ordinary_url_keeps_its_name "sds_123-a.pdf"). reflexivity. Defined.

(** X7.  A successful download of such a URL stores the whole body in the file
    of that name directly under the output directory (the names ["."] and
    [".."] apart). *)
Theorem ordinary_download_lands_under_its_name
        (env : DownloadEnv) (name : string) (w : World) :
  is_clean_name name = true → name ≠ "." → name ≠ ".." →
  fst (downloadPDF env (origin +:+ "/" +:+ name) outputDir w) = true →
  ∃ resp,
    client_Get env = Some resp ∧ Body resp ≠ EmptyString
    ∧ fs (snd (downloadPDF env (origin +:+ "/" +:+ name) outputDir w))
        !! (outputDir +:+ name)
      = Some (File (Body resp)).
Proof.
  intros Hclean Hdot Hdotdot Hok.
  destruct (clean_name_parts name Hclean) as [Hall Hne].
  destruct (downloadPDF_success_stores_body env _ outputDir w Hok)
    as (resp & Hget & Hbody & Hfile).
  exists resp. split; [done|]. split; [done|].
  unfold sanitizeFileNameFromURL in Hfile.
  rewrite (ordinary_url_name_logged name Hclean) in Hfile. cbn [fst] in Hfile.
  rewrite Join_outputDir in Hfile; [done| |done..].
  by apply filename_lacks.
Qed.

Lemma ordinary_download_lands_under_its_name_witness :
  let env := mkDownloadEnv
               (Some (mkResponse 200 "200 OK" "application/pdf" "%PDF-1.7" false))
               false None in
  ∃ resp,
    client_Get env = Some resp ∧ Body resp ≠ EmptyString
    ∧ fs (snd (downloadPDF env "https://www.avient.com/sds_123-a.pdf" outputDir
                           (mkWorld ∅ [] [])))
        !! "PDFs/sds_123-a.pdf"
      = Some (File (Body resp)).
Proof.
  intros env.
  apply (ordinary_download_lands_under_its_name env "sds_123-a.pdf" (mkWorld ∅ [] []));
    [reflexivity | discriminate | discriminate | vm_compute; reflexivity].
Defined.

End OrdinaryLinks.

(** ** More on deduplication and the download loop *)

Section DeduplicationAlgebra.

Lemma firstOccurrences_after_filter l :
  ∀ b1 b2,
    firstOccurrences_after (b1 ++ b2) l
    = filter (λ x, x ∉ b1) (firstOccurrences_after b2 l).
Proof.
  induction l as [|x l IH]; intros b1 b2; [done|].
  cbn [firstOccurrences_after]. rewrite <- app_assoc, IH.
  destruct (decide (x ∈ b2)) as [H2|H2].
  - rewrite decide_True by (rewrite elem_of_app; by right). done.
  - destruct (decide (x ∈ b1)) as [H1|H1].
    + rewrite decide_True by (rewrite elem_of_app; by left).
      by rewrite filter_cons_False by (by intros ?).
    + rewrite decide_False by (rewrite elem_of_app; by intros [?|?]).
      by rewrite filter_cons_True.
Qed.

(** X8.  A slice comes back unchanged exactly when it has no repeated value. *)
Theorem removeDuplicatesFromSlice_fixes_distinct (slice : list string) :
  removeDuplicatesFromSlice slice = slice ↔ NoDup slice.
Proof.
  rewrite removeDuplicates_firstOccurrences. split.
  - intros <-. apply NoDup_firstOccurrences_after.
  - intros Hnd. apply firstOccurrences_after_fixed; [done|].
    intros x _ Hx. inversion Hx.
Qed.

(** X9.  Deduplicating a concatenation: the first part is deduplicated on its
    own, and of the deduplicated second part only the values new to the
    first part remain.  In particular a slice followed by itself gives the
    same result as the slice. *)
Theorem removeDuplicatesFromSlice_app (l1 l2 : list string) :
  removeDuplicatesFromSlice (l1 ++ l2)
  = removeDuplicatesFromSlice l1
    ++ filter (λ x, x ∉ l1) (removeDuplicatesFromSlice l2)
  ∧ removeDuplicatesFromSlice (l1 ++ l1) = removeDuplicatesFromSlice l1.
Proof.
  assert (Happ : ∀ k1 k2, firstOccurrences (k1 ++ k2)
                          = firstOccurrences k1
                            ++ filter (λ x, x ∉ k1) (firstOccurrences k2)).
  { intros k1 k2. unfold firstOccurrences.
    rewrite firstOccurrences_after_app. f_equal. simpl.
    rewrite <- (app_nil_r k1) at 1. apply firstOccurrences_after_filter. }
  rewrite !removeDuplicates_firstOccurrences. split; [apply Happ|].
  rewrite Happ.
  assert (Hnil : filter (λ x, x ∉ l1) (firstOccurrences l1) = []).
  { assert (Hall : ∀ k : list string,
              (∀ x, x ∈ k → x ∈ l1) → filter (λ x, x ∉ l1) k = []).
    { induction k as [|x k IHk]; intros Hk; [done|].
      rewrite filter_cons_False by (intros Hx; apply Hx, Hk; by left).
      apply IHk. intros y Hy. apply Hk. by right. }
    apply Hall. intros x Hx. unfold firstOccurrences in Hx.
    by apply elem_of_firstOccurrences_after in Hx as [Hx _]. }
  by rewrite Hnil, app_nil_r.
Qed.

End DeduplicationAlgebra.

Section LoopLaunches.

Lemma length_omap_le {A B} (f : A → option B) (l : list A) :
  (length (omap f l) ≤ length l)%nat.
Proof.
  induction l as [|x l IH]; [done|]. cbn [omap list_omap length].
  destruct (f x); simpl; lia.
Qed.

Lemma length_reverse_rev {A} (l : list A) : length (rev l) = length l.
Proof. apply List.length_rev. Qed.

(** X10.  A launched download always carries the origin followed by a link that did
    not already start with the origin, and the URL is a valid request URI. *)
Theorem launched_url_is_origin_and_link (url fullURL : string) :
  loopBody url = Launched fullURL →
  fullURL = origin +:+ url
  ∧ GoStrings.HasPrefix url origin = false
  ∧ isUrlValid fullURL = true.
Proof.
  intros Hl. pose proof (loopBody_Launched url fullURL Hl) as ->.
  destruct (GoStrings.HasPrefix url origin) eqn:Hp.
  - rewrite loopBody_absolute in Hl by done. discriminate.
  - rewrite loopBody_relative in Hl by done.
    destruct (isUrlValid (origin +:+ url)); [done|discriminate].
Qed.

Lemma launched_url_is_origin_and_link_witness :
  "https://www.avient.com/a.pdf" = origin +:+ "/a.pdf"
  ∧ GoStrings.HasPrefix "/a.pdf" origin = false
  ∧ isUrlValid "https://www.avient.com/a.pdf" = true.
Proof.
  apply (launched_url_is_origin_and_link "/a.pdf" "https://www.avient.com/a.pdf").
  reflexivity.
Defined.

(** X11.  The tasks of a run: one for every distinct extracted link that the loop
    body launches, none twice, and no more tasks than links. *)
Theorem launchedTasks_are_the_launched_links (parsed : list string) :
  NoDup (launchedTasks parsed)
  ∧ (∀ fullURL, fullURL ∈ launchedTasks parsed
                ↔ ∃ url, url ∈ parsed ∧ loopBody url = Launched fullURL)
  ∧ (length (launchedTasks parsed) ≤ length parsed)%nat.
Proof.
  assert (Hlinks : linksToVisit parsed = rev (firstOccurrences parsed)).
  { unfold linksToVisit. by rewrite removeDuplicates_firstOccurrences. }
  rewrite launchedTasks_unfold, Hlinks. split; [|split].
  - apply NoDup_launched.
    apply NoDup_ListNoDup, List.NoDup_rev, NoDup_ListNoDup.
    apply NoDup_firstOccurrences_after.
  - intros fullURL. rewrite list_elem_of_omap. split.
    + intros (url & Hin & Hl). exists url. split.
      * apply list_elem_of_In, List.in_rev, list_elem_of_In in Hin.
        unfold firstOccurrences in Hin.
        by apply elem_of_firstOccurrences_after in Hin as [Hin _].
      * destruct (loopBody url); [done|]. by injection Hl as ->.
    + intros (url & Hin & Hl). exists url. split; [|by rewrite Hl].
      apply list_elem_of_In. rewrite <- List.in_rev. apply list_elem_of_In.
      unfold firstOccurrences. apply elem_of_firstOccurrences_after.
      split; [done|]. intros H. inversion H.
  - etrans; [apply length_omap_le|]. rewrite length_reverse_rev.
    apply sublist_length, sublist_firstOccurrences_after.
Qed.

End LoopLaunches.

(** ** More on download tasks *)

Section DownloadOutcomes.

(** Opens [downloadPDF] and splits its exit paths. *)
Ltac download_paths finalURL env :=
  unfold downloadPDF, sanitizeFileNameFromURL;
  destruct (sanitizeFileNameFromURL_logged finalURL) as [filename lg];
  cbn [fst snd];
  rewrite ?fileExists_logged;
  destruct (fileExists _ _) eqn:Hexists;
  [|destruct (client_Get env) as [resp|] eqn:Hget;
    [destruct (StatusCode resp =? StatusOK)%nat eqn:Hstatus;
     [destruct (GoStrings.Contains (ContentType resp) "application/pdf") eqn:Htype;
      [destruct (BodyErr resp) eqn:Hread;
       [|destruct (String.length (Body resp) =? 0)%nat eqn:Hlen;
         [|destruct (os_Create_err env) eqn:Hcreate;
           [|destruct (isDir _ _) eqn:Hdir;
             [|destruct (WriteTo_err env) as [k|] eqn:Hwrite]]]]|]|]|]];
  cbn [negb orb fst snd].

(** X12.  A download succeeds exactly when the target file is absent, the request
    is answered with status OK, a content type containing
    ["application/pdf"] and a non-empty body that is read without error, and
    the file is created and written without error. *)
Theorem downloadPDF_succeeds_iff
        (env : DownloadEnv) (finalURL dir : string) (w : World) :
  fst (downloadPDF env finalURL dir w) = true ↔
  fileExists w (GoFilepath.Join dir (sanitizeFileNameFromURL finalURL)) = false
  ∧ isDir w (GoFilepath.Join dir (sanitizeFileNameFromURL finalURL)) = false
  ∧ os_Create_err env = false
  ∧ WriteTo_err env = None
  ∧ ∃ resp, client_Get env = Some resp
            ∧ StatusCode resp = StatusOK
            ∧ GoStrings.Contains (ContentType resp) "application/pdf" = true
            ∧ BodyErr resp = false
            ∧ Body resp ≠ EmptyString.
Proof.
  download_paths finalURL env.
  all: change (isDir (requested (logged w lg) finalURL) ?p) with (isDir w p) in *.
  all: split; [try discriminate|].
  all: try (intros (? & ? & ? & ? & resp' & Hg & Hs & Ht & Hr & Hb); try congruence).
  - injection Hg as <-. apply Nat.eqb_eq in Hlen.
    destruct (Body resp); [done|discriminate].
  - intros _. repeat split; try done. exists resp. repeat split; try done.
    + by apply Nat.eqb_eq.
    + intros Hb. by rewrite Hb in Hlen.
  - injection Hg as <-. apply Nat.eqb_neq in Hstatus. done.
Qed.

(** X13.  Whatever happens, a download task changes no file other than its
    target. *)
Theorem downloadPDF_touches_only_its_target
        (env : DownloadEnv) (finalURL dir : string) (w : World) (p : string) :
  p ≠ GoFilepath.Join dir (sanitizeFileNameFromURL finalURL) →
  fs (snd (downloadPDF env finalURL dir w)) !! p = fs w !! p.
Proof.
  intros Hp. revert Hp. download_paths finalURL env; intros Hp; try done.
  all: cbn [fs logged written requested]; by rewrite !lookup_insert_ne.
Qed.

Lemma downloadPDF_touches_only_its_target_witness :
  let env := mkDownloadEnv
               (Some (mkResponse 200 "200 OK" "application/pdf" "%PDF-1.7" false))
               false None in
  let w := mkWorld {["avient.com.html" := File "<html>"]} [] [] in
  fs (snd (downloadPDF env "https://www.avient.com/a.pdf" "PDFs/" w)) !! "avient.com.html"
  = Some (File "<html>").
Proof.
  intros env w.
  apply (downloadPDF_touches_only_its_target env "https://www.avient.com/a.pdf" "PDFs/" w
           "avient.com.html").
  vm_compute. discriminate.
Defined.

(** X14.  A download task issues exactly one request, for its URL, when the target
    file is absent, and none when it is present. *)
Theorem downloadPDF_requests_once
        (env : DownloadEnv) (finalURL dir : string) (w : World) :
  requests (snd (downloadPDF env finalURL dir w))
  = if fileExists w (GoFilepath.Join dir (sanitizeFileNameFromURL finalURL))
    then requests w else requests w ++ [finalURL].
Proof. download_paths finalURL env; done. Qed.

(** X15.  Every exit path of a download task logs exactly one line of its own, after
    whatever the sanitizer logged. *)
Theorem downloadPDF_logs_its_outcome
        (env : DownloadEnv) (finalURL dir : string) (w : World) :
  ∃ line,
    log (snd (downloadPDF env finalURL dir w))
    = log w ++ snd (sanitizeFileNameFromURL_logged finalURL) ++ [line].
Proof.
  unfold downloadPDF.
  destruct (sanitizeFileNameFromURL_logged finalURL) as [filename lg].
  cbn [snd].
  repeat match goal with
         | |- context [if ?b then _ else _] => destruct b
         | |- context [match ?o with Some _ => _ | None => _ end] => destruct o
         end;
    cbn [snd log logged written requested]; rewrite <- app_assoc; eauto.
Qed.

(** X16.  Downloads are idempotent: after a task has succeeded, any later task for
    the same URL returns [false] without a request and without touching the
    files. *)
Theorem downloadPDF_skips_after_success
        (env env' : DownloadEnv) (finalURL dir : string) (w : World) :
  fst (downloadPDF env finalURL dir w) = true →
  fst (downloadPDF env' finalURL dir (snd (downloadPDF env finalURL dir w))) = false
  ∧ requests (snd (downloadPDF env' finalURL dir (snd (downloadPDF env finalURL dir w))))
    = requests (snd (downloadPDF env finalURL dir w))
  ∧ fs (snd (downloadPDF env' finalURL dir (snd (downloadPDF env finalURL dir w))))
    = fs (snd (downloadPDF env finalURL dir w)).
Proof.
  intros Hok.
  assert (Hex : fileExists (snd (downloadPDF env finalURL dir w))
                  (GoFilepath.Join dir (sanitizeFileNameFromURL finalURL)) = true).
  { destruct (downloadPDF_success_stores_body env finalURL dir w Hok)
      as (resp & _ & _ & Hfile).
    unfold fileExists. by rewrite Hfile. }
  revert Hex. generalize (snd (downloadPDF env finalURL dir w)). intros w1 Hex.
  unfold downloadPDF, sanitizeFileNameFromURL in *.
  destruct (sanitizeFileNameFromURL_logged finalURL) as [filename lg].
  cbn [fst snd] in *. rewrite fileExists_logged, Hex. done.
Qed.

Lemma downloadPDF_skips_after_success_witness :
  let env := mkDownloadEnv
               (Some (mkResponse 200 "200 OK" "application/pdf" "%PDF-1.7" false))
               false None in
  let w1 := snd (downloadPDF env "https://www.avient.com/a.pdf" "PDFs/" (mkWorld ∅ [] [])) in
  fst (downloadPDF env "https://www.avient.com/a.pdf" "PDFs/" w1) = false
  ∧ requests (snd (downloadPDF env "https://www.avient.com/a.pdf" "PDFs/" w1)) = requests w1
  ∧ fs (snd (downloadPDF env "https://www.avient.com/a.pdf" "PDFs/" w1)) = fs w1.
Proof.
  intros env w1.
  apply (downloadPDF_skips_after_success env env "https://www.avient.com/a.pdf" "PDFs/"
           (mkWorld ∅ [] [])).
  vm_compute. reflexivity.
Defined.

(** X17.  A task that fails for any reason other than a write error leaves
    every file as it was: no file is created for a failed request, a
    rejected response or a failed [os.Create]. *)
Theorem download_failure_writes_nothing
        (env : DownloadEnv) (finalURL dir : string) (w : World) :
  WriteTo_err env = None →
  fst (downloadPDF env finalURL dir w) = false →
  fs (snd (downloadPDF env finalURL dir w)) = fs w.
Proof. apply downloadPDF_failure_leaves_files. Qed.

Lemma download_failure_writes_nothing_witness :
  let env := mkDownloadEnv
               (Some (mkResponse 404 "404 Not Found" "text/html" "<html>" false))
               false None in
  fs (snd (downloadPDF env "https://www.avient.com/a.pdf" "PDFs/" (mkWorld ∅ [] []))) = ∅.
Proof.
  intros env.
  apply (download_failure_writes_nothing env "https://www.avient.com/a.pdf" "PDFs/"
           (mkWorld ∅ [] [])); reflexivity.
Defined.

End DownloadOutcomes.

(** ** The aggregate artifact and the page fetch *)

Section AggregateArtifact.

Lemma append_assoc_string (a b c : string) : (a +:+ b) +:+ c = a +:+ b +:+ c.
Proof.
  induction a as [|x a IH]; [done|].
  change (String x ((a +:+ b) +:+ c) = String x (a +:+ b +:+ c)). by rewrite IH.
Qed.

Lemma take_length s : GoStrings.take (String.length s) s = s.
Proof. induction s as [|c s IH]; [done|]. simpl. by rewrite IH. Qed.

Lemma contentOf_written w path content :
  contentOf (written w path content) path = content.
Proof. unfold contentOf, written. simpl. by rewrite lookup_insert_eq. Qed.

Lemma appendAndWriteToFile_Return_inv env path content w w' :
  appendAndWriteToFile env path content w = Return w' →
  OpenFile_err env = false ∧ isDir w path = false
  ∧ WriteString_err env = None ∧ Close_err env = false
  ∧ w' = written w path (contentOf w path +:+ content +:+ newline).
Proof.
  unfold appendAndWriteToFile.
  destruct (OpenFile_err env); [discriminate|].
  destruct (isDir w path); [discriminate|].
  destruct (WriteString_err env); [discriminate|].
  destruct (Close_err env); [discriminate|]. by intros [= <-].
Qed.

(** X18.  When [appendAndWriteToFile] returns, the file exists and holds its old
    content followed by the new content and a newline; nothing was
    requested or logged. *)
Theorem appendAndWriteToFile_appends_line env path content w w' :
  appendAndWriteToFile env path content w = Return w' →
  contentOf w' path = contentOf w path +:+ content +:+ newline
  ∧ fileExists w' path = true
  ∧ requests w' = requests w ∧ log w' = log w.
Proof.
  intros (_ & _ & _ & _ & ->)%appendAndWriteToFile_Return_inv.
  rewrite contentOf_written. repeat split.
  unfold fileExists, written. simpl. by rewrite lookup_insert_eq.
Qed.

Lemma appendAndWriteToFile_appends_line_witness :
  let w := mkWorld {["avient.com.html" := File "<p>0</p>"]} [] [] in
  ∃ w', appendAndWriteToFile (mkAppendEnv false None false) "avient.com.html" "<p>1</p>" w
        = Return w'
        ∧ contentOf w' "avient.com.html" = "<p>0</p>" +:+ "<p>1</p>" +:+ newline.
Proof.
  intros w. eexists. split; [reflexivity|].
  refine (proj1 (appendAndWriteToFile_appends_line (mkAppendEnv false None false)
                   "avient.com.html" "<p>1</p>" w _ eq_refl)).
Defined.

(** X19.  The file is only ever extended: however the call ends, the old content
    is still there, followed by a prefix of the new line. *)
Theorem appendAndWriteToFile_never_truncates env path content w w' :
  appendAndWriteToFile env path content w = Exit w'
  ∨ appendAndWriteToFile env path content w = Return w' →
  ∃ k, contentOf w' path
       = contentOf w path +:+ GoStrings.take k (content +:+ newline).
Proof.
  unfold appendAndWriteToFile.
  destruct (OpenFile_err env || isDir w path).
  { intros [[= <-]|[=]]. exists 0. by rewrite append_nil_r. }
  destruct (WriteString_err env) as [k|].
  { intros [[= <-]|[=]]. exists k. unfold logged. apply contentOf_written. }
  exists (String.length (content +:+ newline)). rewrite take_length.
  destruct (Close_err env); destruct H as [H|H]; inversion H; subst;
    apply contentOf_written.
Qed.

Lemma appendAndWriteToFile_never_truncates_witness :
  let w := mkWorld {["avient.com.html" := File "<p>0</p>"]} [] [] in
  ∃ w' k,
    appendAndWriteToFile (mkAppendEnv false (Some 3) false) "avient.com.html" "<p>1</p>" w
    = Exit w'
    ∧ contentOf w' "avient.com.html"
      = "<p>0</p>" +:+ GoStrings.take k ("<p>1</p>" +:+ newline).
Proof.
  intros w. eexists.
  destruct (appendAndWriteToFile_never_truncates (mkAppendEnv false (Some 3) false)
              "avient.com.html" "<p>1</p>" w _ (or_introl eq_refl)) as [k Hk].
  exists k. split; [reflexivity | exact Hk].
Defined.

(** X20.  Page bodies accumulate in the order in which the appends happen. *)
Theorem appendAndWriteToFile_accumulates env1 env2 path c1 c2 w w1 w2 :
  appendAndWriteToFile env1 path c1 w = Return w1 →
  appendAndWriteToFile env2 path c2 w1 = Return w2 →
  contentOf w2 path = contentOf w path +:+ c1 +:+ newline +:+ c2 +:+ newline.
Proof.
  intros (_ & _ & _ & _ & ->)%appendAndWriteToFile_Return_inv.
  intros (_ & _ & _ & _ & ->)%appendAndWriteToFile_Return_inv.
  rewrite !contentOf_written. by rewrite !append_assoc_string.
Qed.

Lemma appendAndWriteToFile_accumulates_witness :
  ∃ w1 w2,
    appendAndWriteToFile (mkAppendEnv false None false) "avient.com.html" "<p>7</p>"
                         (mkWorld ∅ [] []) = Return w1
    ∧ appendAndWriteToFile (mkAppendEnv false None false) "avient.com.html" "<p>3</p>" w1
      = Return w2
    ∧ contentOf w2 "avient.com.html"
      = EmptyString +:+ "<p>7</p>" +:+ newline +:+ "<p>3</p>" +:+ newline.
Proof.
  eexists. eexists. split; [reflexivity|]. split; [reflexivity|].
  refine (appendAndWriteToFile_accumulates (mkAppendEnv false None false)
            (mkAppendEnv false None false) "avient.com.html" "<p>7</p>" "<p>3</p>"
            (mkWorld ∅ [] []) _ _ eq_refl eq_refl).
Defined.

(** X21.  When [getDataFromURL] returns, the request succeeded, the body was read
    and closed without error, exactly one request (for the page's URL) was
    issued, and the aggregate file grew by the body and a newline. *)
Theorem getDataFromURL_returns_after_append get env uri localLocationo w w' :
  getDataFromURL get env uri localLocationo w = Return w' →
  ∃ response,
    get = Some response
    ∧ ReadAll_err response = false ∧ BodyClose_err response = false
    ∧ requests w' = requests w ++ [uri]
    ∧ contentOf w' localLocationo
      = contentOf w localLocationo +:+ PageBody response +:+ newline.
Proof.
  unfold getDataFromURL, fetchPage.
  destruct get as [response|]; [|discriminate].
  destruct (ReadAll_err response) eqn:Hr; [discriminate|].
  destruct (BodyClose_err response) eqn:Hc; [discriminate|].
  intros (_ & _ & _ & _ & ->)%appendAndWriteToFile_Return_inv.
  exists response. repeat split; try done. apply contentOf_written.
Qed.

Lemma getDataFromURL_returns_after_append_witness :
  ∃ w',
    getDataFromURL (Some (mkPageResponse "<html>" false false))
                   (mkAppendEnv false None false) (pageURL 0) localLocation
                   (mkWorld ∅ [] []) = Return w'
    ∧ requests w' = [] ++ [pageURL 0]
    ∧ contentOf w' localLocation = EmptyString +:+ "<html>" +:+ newline.
Proof.
  eexists. split; [reflexivity|].
  match goal with
  | |- requests ?T = _ ∧ _ =>
      assert (Hrun : getDataFromURL (Some (mkPageResponse "<html>" false false))
                       (mkAppendEnv false None false) (pageURL 0) localLocation
                       (mkWorld ∅ [] []) = Return T) by reflexivity;
      destruct (getDataFromURL_returns_after_append _ _ _ _ _ T Hrun)
        as (response & Hget & _ & _ & Hreq & Hcontent)
  end.
  injection Hget as <-. split; [exact Hreq | exact Hcontent].
Defined.

(** X22.  However a page fetch ends, it has issued exactly one request and has
    changed no file other than the aggregate artifact. *)
Theorem getDataFromURL_one_request get env uri localLocationo w w' :
  getDataFromURL get env uri localLocationo w = Exit w'
  ∨ getDataFromURL get env uri localLocationo w = Return w' →
  requests w' = requests w ++ [uri]
  ∧ ∀ p, p ≠ localLocationo → fs w' !! p = fs w !! p.
Proof.
  unfold getDataFromURL.
  destruct (fetchPage get uri w) as [w1|[body w1]] eqn:Hf.
  - intros [[= <-]|[=]]. split; [|by rewrite (fetchPage_exit_fs _ _ _ _ Hf)].
    unfold fetchPage in Hf. destruct get as [response|]; [|by injection Hf as <-].
    destruct (ReadAll_err response); [by injection Hf as <-|].
    destruct (BodyClose_err response); [by injection Hf as <-|discriminate].
  - intros Ha.
    assert (Hreq1 : requests w1 = requests w ++ [uri]).
    { unfold fetchPage in Hf. destruct get as [response|]; [|discriminate].
      destruct (ReadAll_err response); [discriminate|].
      destruct (BodyClose_err response); [discriminate|]. by injection Hf as _ <-. }
    split.
    + rewrite <- Hreq1. unfold appendAndWriteToFile in Ha.
      destruct (_ || _); [by destruct Ha as [[= <-]|[=]]|].
      destruct (WriteString_err env); [by destruct Ha as [[= <-]|[=]]|].
      destruct (Close_err env); destruct Ha as [Ha|Ha]; inversion Ha; subst; done.
    + intros p Hp.
      rewrite (appendAndWriteToFile_other_files env localLocationo body w1 w' Ha p Hp).
      by rewrite (fetchPage_body_fs _ _ _ _ _ Hf).
Qed.

Lemma getDataFromURL_one_request_witness :
  ∃ w', getDataFromURL None (mkAppendEnv false None false) (pageURL 0) localLocation
                       (mkWorld ∅ [] []) = Exit w'
        ∧ requests w' = [] ++ [pageURL 0].
Proof.
  eexists. split; [reflexivity|].
  refine (proj1 (getDataFromURL_one_request None (mkAppendEnv false None false)
                   (pageURL 0) localLocation (mkWorld ∅ [] []) _ (or_introl eq_refl))).
Defined.

End AggregateArtifact.

(** ** More on the runs of [main] *)

Section RunInvariants.

Context `{MarkupParser}.

Lemma omap_snoc {A B} (f : A → option B) (l : list A) (x : A) :
  omap f (l ++ [x]) = omap f l ++ match f x with Some y => [y] | None => [] end.
Proof. rewrite omap_app. cbn [omap list_omap]. by destruct (f x). Qed.

Lemma Counted_step s e s' : Counted s → step s e s' → Counted s'.
Proof.
  intros [C1 C2 C3] Hs.
  inversion Hs; subst; clear Hs.
  all: repeat match goal with
              | Hpc : pc _ = _ |- _ => rewrite Hpc in C3; simpl in C3
              end.
  all: split; simpl; try done.
  all: try (intros _; by apply C3).
  all: try match goal with
           | Ht : pageTasks _ = _ |- _ => rewrite C1, Ht, !length_app; simpl; lia
           | Ht : downloadTasks _ = _ |- _ => rewrite C2, Ht, !length_app; simpl; lia
           end.
  - rewrite length_app, C1. simpl. lia.
  - rewrite length_app, C2. simpl. lia.
  - intros _. destruct (downloadTasks s); [done|]. simpl in C2. congruence.
  - intros Hd. specialize (C3 Hd).
    match goal with Ht : downloadTasks _ = ?b ++ _ |- _ =>
      rewrite C3 in Ht; destruct b; discriminate end.
Qed.

Lemma Counted_run w0 tr s : run (initial w0) tr s → Counted s.
Proof.
  induction 1 as [|tr s e s' _ IH Hs]; [by split|].
  by apply (Counted_step s e s').
Qed.

(** X23.  In every run each wait group holds the number of its goroutines that
    have not finished. *)
Theorem wait_groups_count_goroutines (w0 : World) (tr : list Event) (s : State) :
  run (initial w0) tr s →
  htmlDownloadWaitGroup s = length (pageTasks s)
  ∧ pdfDownloadWaitGroup s = length (downloadTasks s).
Proof. intros Hrun. destruct (Counted_run w0 tr s Hrun). done. Qed.

(** X24.  The barrier between the stages: once [main] has passed the wait for the
    pages, no page goroutine is left, and no download goroutine exists
    before the download loop. *)
Theorem stages_do_not_overlap (w0 : World) (tr : list Event) (s : State) :
  run (initial w0) tr s →
  (crawling (pc s) = false → pageTasks s = [])
  ∧ (beforeExtraction (pc s) = true → downloadTasks s = []).
Proof.
  intros Hrun. split.
  - apply (inv_joined w0 tr s (Invariant_run w0 tr s Hrun)).
  - intros Hb. apply (counted_idle s (Counted_run w0 tr s Hrun)).
    by destruct (pc s).
Qed.

(** X25.  [main] reaches its end only when every goroutine it started has
    finished. *)
Theorem main_ends_after_all_goroutines (w0 : World) (tr : list Event) (s : State) :
  run (initial w0) tr s → pc s = AtEnd →
  pageTasks s = [] ∧ downloadTasks s = []
  ∧ htmlDownloadWaitGroup s = 0 ∧ pdfDownloadWaitGroup s = 0.
Proof.
  intros Hrun Hpc.
  destruct (Counted_run w0 tr s Hrun) as [C1 C2 C3].
  pose proof (inv_joined w0 tr s (Invariant_run w0 tr s Hrun)) as Hj.
  rewrite Hpc in Hj, C3. specialize (Hj eq_refl). specialize (C3 eq_refl).
  rewrite C1, C2, Hj, C3. done.
Qed.


Lemma launchedPages_snoc tr e :
  launchedPages (tr ++ [e])
  = launchedPages tr ++ match pageLaunch e with Some u => [u] | None => [] end.
Proof. apply omap_snoc. Qed.

Lemma PagesInOrder_step tr s n e s' :
  PagesInOrder tr s n → step s e s' → ∃ n', PagesInOrder (tr ++ [e]) s' n'.
Proof.
  intros [P1 P2 P3 P4 P5] Hs.
  inversion Hs; subst; clear Hs.
  2: { (* a page is launched *)
    exists (S n).
    match goal with Hpc : pc _ = AtPageLoop ?k |- _ =>
      pose proof (P3 k Hpc) as -> end.
    split; cbn [pc]; try done.
    - lia.
    - rewrite launchedPages_snoc, P2, seq_S, fmap_app. done.
    - by intros k [= <-]. }
  all: exists n; split; cbn [pc set_pc exited]; try done.
  all: rewrite ?launchedPages_snoc, ?app_nil_r; cbn [pageLaunch]; rewrite ?app_nil_r.
  all: try done.
  all: try match goal with
           | Hpc : pc ?s = _ |- context [pc ?s] => rewrite Hpc; try done
           end.
  - intros k. rewrite (P4 H1). destruct (fileExists _ _); [done|]. by intros [= <-].
  - by destruct (fileExists _ _).
  - by destruct (fileExists _ _).
  - intros _.
    match goal with Hpc : pc _ = AtPageLoop ?k |- _ =>
      pose proof (P3 k Hpc) as -> end. lia.
Qed.

Lemma PagesInOrder_run w0 tr s :
  run (initial w0) tr s → ∃ n, PagesInOrder tr s n.
Proof.
  induction 1 as [|tr s e s' _ [n IH] Hs].
  - exists 0. split; try done. lia.
  - by apply (PagesInOrder_step tr s n e s').
Qed.

(** X26.  The page loop starts the fetches of the pages [0], [1], ... in this
    order, one goroutine per page and never more than [lastPage + 1] of
    them; when [main] waits for the pages, all [lastPage + 1] have been
    started. *)
Theorem pages_are_launched_in_order (w0 : World) (tr : list Event) (s : State) :
  run (initial w0) tr s →
  ∃ n, (n ≤ S lastPage)%nat
       ∧ launchedPages tr = pageURL <$> seq 0 n
       ∧ (∀ k, pc s = AtPageLoop k → k = n)
       ∧ (pc s = AtPageWait → n = S lastPage).
Proof.
  intros Hrun. destruct (PagesInOrder_run w0 tr s Hrun) as [n [P1 P2 P3 P4 P5]].
  by exists n.
Qed.

Lemma CrawlSkipped_step w0 tr s e s' :
  fileExists w0 localLocation = true →
  Invariant w0 tr s → Counted s →
  CrawlSkipped w0 tr s → step s e s' → CrawlSkipped w0 (tr ++ [e]) s'.
Proof.
  intros Hfile Hinv Hcnt [K1 K2 K3] Hs.
  pose proof (inv_start w0 tr s Hinv) as Hno_pages.
  pose proof (counted_idle s Hcnt) as Hno_downloads.
  inversion Hs; subst; clear Hs.
  all: try match goal with
           | Hpc : pc _ = _ |- _ =>
               rewrite Hpc in K1; destruct K1 as [K1|K1]; try discriminate K1
           end.
  all: split; cbn [pc set_pc exited world]; rewrite ?launchedPages_snoc, ?K3;
    cbn [pageLaunch app]; try done.
  all: try (by right).
  all: try match goal with
           | Hpc : pc ?s = AtExtract |- context [pc ?s] =>
               rewrite Hpc; first [by right | discriminate]
           end.
  all: try match goal with
           | Ht : pageTasks ?s = ?b ++ _ :: _ |- pc ?s = AtStart → _ =>
               let Hpc := fresh in
               intros Hpc; rewrite (Hno_pages Hpc) in Ht; destruct b; discriminate
           | Ht : downloadTasks ?s = ?b ++ _ :: _ |- pc ?s = AtStart → _ =>
               let Hpc := fresh in
               intros Hpc; rewrite Hpc in Hno_downloads;
               rewrite (Hno_downloads eq_refl) in Ht; destruct b; discriminate
           end.
  - destruct (K2 H1) as [_ ->]. rewrite Hfile. by right.
  - destruct (K2 H1) as [_ ->]. rewrite Hfile. discriminate.
Qed.

Lemma CrawlSkipped_run w0 tr s :
  fileExists w0 localLocation = true →
  run (initial w0) tr s → CrawlSkipped w0 tr s.
Proof.
  intros Hfile. induction 1 as [|tr s e s' Hrun IH Hs].
  - split; [by left | done | done].
  - apply (CrawlSkipped_step w0 tr s e s'); try done.
    + by apply Invariant_run.
    + by apply (Counted_run w0 tr).
Qed.

(** X27.  The crawl is gated by the aggregate artifact: when the file is there at
    the start, no run of [main] fetches a page. *)
Theorem existing_artifact_skips_crawl (w0 : World) (tr : list Event) (s : State) :
  fileExists w0 localLocation = true →
  run (initial w0) tr s →
  launchedPages tr = [] ∧ pageTasks s = []
  ∧ (pc s = AtStart ∨ crawling (pc s) = false)
  ∧ ∀ uri, EvTransportError uri ∉ tr.
Proof.
  intros Hfile Hrun.
  destruct (CrawlSkipped_run w0 tr s Hfile Hrun) as [K1 K2 K3].
  pose proof (Invariant_run w0 tr s Hrun) as Hinv.
  split; [done|]. split; [|split; [done|]].
  - destruct K1 as [K1|K1]; [by apply (inv_start w0 tr s Hinv)|].
    by apply (inv_joined w0 tr s Hinv).
  - destruct K1 as [K1|K1]; [|by apply (inv_no_error w0 tr s Hinv)].
    destruct (K2 K1) as [-> _]. intros uri Hin. inversion Hin.
Qed.

Lemma launchedDownloads_snoc tr e :
  launchedDownloads (tr ++ [e])
  = launchedDownloads tr ++ match downloadLaunch e with Some u => [u] | None => [] end.
Proof. apply omap_snoc. Qed.

Lemma DownloadsInOrder_step tr s e s' :
  DownloadsInOrder tr s → step s e s' → DownloadsInOrder (tr ++ [e]) s'.
Proof.
  intros [D1 D2] Hs.
  inversion Hs; subst; clear Hs.
  all: try match goal with
           | Hpc : pc _ = _ |- _ => rewrite Hpc in D1, D2; cbn in D1, D2
           end.
  all: split; cbn [pc set_pc exited pendingLinks];
    rewrite ?launchedDownloads_snoc; cbn [downloadLaunch]; rewrite ?app_nil_r.
  (* before the extraction nothing is launched *)
  all: try (intros Hb; cbn in Hb; try discriminate Hb;
            destruct D1 as [Hl Hn]; [first [reflexivity | exact Hb]|];
            split; [by rewrite ?Hl|];
            intros links [Hin|Heq]%elem_of_snoc;
            [exact (Hn links Hin) | discriminate]).
  all: try (destruct (fileExists (world s) localLocation); discriminate).
  all: intros links [Hin|Heq]%elem_of_snoc.
  (* an extraction in the past of a state before the extraction *)
  all: try (exfalso; destruct D1 as [_ Hn]; [reflexivity|]; exact (Hn links Hin)).
  all: try discriminate Heq.
  all: try (rewrite ?app_nil_r in D2; by apply D2).
  - injection Heq as ->. exists parsed. split; [done|].
    destruct D1 as [Hl _]; [done|]. by rewrite Hl.
  - destruct (D2 links Hin) as (parsed & Hlinks & Hall).
    exists parsed. split; [done|]. rewrite <- Hall, <- app_assoc. f_equal.
    match goal with Hbody : loopBody _ = Launched _ |- _ =>
      cbn [downloadLoop map omap list_omap]; by rewrite Hbody end.
  - destruct (D2 links Hin) as (parsed & Hlinks & Hall).
    exists parsed. split; [done|]. rewrite <- Hall. f_equal.
    match goal with Hbody : loopBody _ = Skipped _ |- _ =>
      cbn [downloadLoop map omap list_omap]; by rewrite Hbody end.
Qed.

Lemma DownloadsInOrder_run w0 tr s : run (initial w0) tr s → DownloadsInOrder tr s.
Proof.
  induction 1 as [|tr s e s' _ IH Hs].
  - split.
    + intros _. split; [done|]. intros links Hin. inversion Hin.
    + intros links Hin. inversion Hin.
  - by apply (DownloadsInOrder_step tr s e s').
Qed.

(** X28.  The download stage of a run launches the tasks of the extracted links in
    the order of the loop: what has been launched so far is an initial part
    of the tasks of the extracted list, and all of them once [main] waits
    for the downloads or has ended. *)
Theorem downloads_follow_the_extracted_list
        (w0 : World) (tr : list Event) (s : State) (links : list string) :
  run (initial w0) tr s → EvExtracted links ∈ tr →
  ∃ parsed todo,
    links = linksToVisit parsed
    ∧ launchedDownloads tr ++ todo = launchedTasks parsed
    ∧ (pc s = AtDownloadWait ∨ pc s = AtEnd → todo = []).
Proof.
  intros Hrun Hin.
  destruct (DownloadsInOrder_run w0 tr s Hrun) as [_ D2].
  destruct (D2 links Hin) as (parsed & Hlinks & Hall).
  exists parsed, (omap launchedBy (downloadLoop (pendingLinks (pc s)))).
  split; [done|]. split; [done|]. by intros [-> | ->].
Qed.

End RunInvariants.

Lemma exampleRun :
  ∃ s, @run exampleParser (initial exampleWorld) exampleTrace s ∧ pc s = AtEnd.
Proof.
  pose (P := exampleParser).
  pose (url := "https://www.avient.com/a.pdf").
  pose (s1 := mkState AtExtract exampleWorld 0 [] 0 [] true).
  pose (w2 := mkdirAll false outputDir (logged exampleWorld [])).
  pose (s2 := mkState (AtDownloadLoop ["/a.pdf"]) w2 0 [] 0 [] true).
  pose (s3 := mkState (AtDownloadLoop []) w2 0 [] 1 [url] true).
  pose (s4 := mkState AtDownloadWait w2 0 [] 1 [url] true).
  pose (env := mkDownloadEnv None false None).
  pose (s5 := mkState AtDownloadWait (snd (downloadPDF env url outputDir w2))
                      0 [] 0 [] true).
  exists (set_pc s5 AtEnd). split; [|reflexivity].
  refine (@run_step P _ (firstn 5 exampleTrace) s5 _ _ _ _).
  - refine (@run_step P _ (firstn 4 exampleTrace) s4 _ _ _ _).
    + refine (@run_step P _ (firstn 3 exampleTrace) s3 _ _ _ _).
      * refine (@run_step P _ (firstn 2 exampleTrace) s2 _ _ _ _).
        -- refine (@run_step P _ (firstn 1 exampleTrace) s1 _ _ _ _).
           ++ refine (@run_step P _ [] (initial exampleWorld) _ _ (run_nil _) _).
              exact (@step_start P (initial exampleWorld) eq_refl eq_refl).
           ++ exact (@step_extract P s1 false ["/a.pdf"] [] ["/a.pdf"]
                       eq_refl eq_refl eq_refl eq_refl eq_refl).
        -- exact (@step_launch_download P s2 "/a.pdf" [] url eq_refl eq_refl eq_refl).
      * exact (@step_download_loop_done P s3 eq_refl eq_refl).
    + exact (@step_download P s4 [] url [] env eq_refl eq_refl).
  - exact (@step_download_wait P s5 eq_refl eq_refl eq_refl).
Qed.


Lemma wait_groups_count_goroutines_witness :
  ∃ s, @run exampleParser (initial exampleWorld) exampleTrace s
       ∧ htmlDownloadWaitGroup s = length (pageTasks s)
       ∧ pdfDownloadWaitGroup s = length (downloadTasks s).
Proof.
  destruct exampleRun as (s & Hrun & _). exists s. split; [exact Hrun|].
  exact (@wait_groups_count_goroutines exampleParser exampleWorld exampleTrace s Hrun).
Defined.

Lemma stages_do_not_overlap_witness :
  ∃ s, @run exampleParser (initial exampleWorld) exampleTrace s
       ∧ (crawling (pc s) = false → pageTasks s = [])
       ∧ (beforeExtraction (pc s) = true → downloadTasks s = []).
Proof.
  destruct exampleRun as (s & Hrun & _). exists s. split; [exact Hrun|].
  exact (@stages_do_not_overlap exampleParser exampleWorld exampleTrace s Hrun).
Defined.

Lemma main_ends_after_all_goroutines_witness :
  ∃ s, @run exampleParser (initial exampleWorld) exampleTrace s
       ∧ pageTasks s = [] ∧ downloadTasks s = []
       ∧ htmlDownloadWaitGroup s = 0 ∧ pdfDownloadWaitGroup s = 0.
Proof.
  destruct exampleRun as (s & Hrun & Hend). exists s. split; [exact Hrun|].
  exact (@main_ends_after_all_goroutines exampleParser exampleWorld exampleTrace s
           Hrun Hend).
Defined.

Lemma pages_are_launched_in_order_witness :
  ∃ s n, @run exampleParser (initial exampleWorld) exampleTrace s
         ∧ (n ≤ S lastPage)%nat
         ∧ launchedPages exampleTrace = pageURL <$> seq 0 n.
Proof.
  destruct exampleRun as (s & Hrun & _).
  destruct (@pages_are_launched_in_order exampleParser exampleWorld exampleTrace s Hrun)
    as (n & Hn & Hpages & _).
  exists s, n. split; [exact Hrun|]. split; [exact Hn | exact Hpages].
Defined.

Lemma existing_artifact_skips_crawl_witness :
  ∃ s, @run exampleParser (initial exampleWorld) exampleTrace s
       ∧ launchedPages exampleTrace = [] ∧ pageTasks s = [].
Proof.
  destruct exampleRun as (s & Hrun & _). exists s. split; [exact Hrun|].
  destruct (@existing_artifact_skips_crawl exampleParser exampleWorld exampleTrace s
              eq_refl Hrun) as (Hpages & Htasks & _).
  split; [exact Hpages | exact Htasks].
Defined.

Lemma downloads_follow_the_extracted_list_witness :
  ∃ parsed todo,
    ["/a.pdf"] = linksToVisit parsed
    ∧ launchedDownloads exampleTrace ++ todo = launchedTasks parsed.
Proof.
  destruct exampleRun as (s & Hrun & _).
  destruct (@downloads_follow_the_extracted_list exampleParser exampleWorld exampleTrace
              s ["/a.pdf"] Hrun) as (parsed & todo & Hlinks & Hall & _).
  - apply list_elem_of_In. simpl. auto.
  - exists parsed, todo. split; [exact Hlinks | exact Hall].
Defined.

(** ** Validation and extraction: what is rejected and what is logged *)

Section Rejections.

(** X29.  Only a non-empty string without ASCII control bytes passes
    [isUrlValid]. *)
Theorem isUrlValid_needs_clean_text (uri : string) :
  isUrlValid uri = true →
  uri ≠ EmptyString ∧ GoUrl.stringContainsCTLByte uri = false.
Proof.
  unfold isUrlValid, GoUrl.ParseRequestURI, GoUrl.parse.
  destruct (GoUrl.stringContainsCTLByte uri); [discriminate|].
  destruct uri; [discriminate|]. done.
Qed.

Lemma isUrlValid_needs_clean_text_witness :
  "https://www.avient.com/a.pdf" ≠ EmptyString
  ∧ GoUrl.stringContainsCTLByte "https://www.avient.com/a.pdf" = false.
Proof.
  apply (isUrlValid_needs_clean_text "https://www.avient.com/a.pdf"). reflexivity.
Defined.

Context `{MarkupParser}.

Lemma fold_visitAnchor_log (selections : list Selection) :
  ∀ pdfLinks lg,
    snd (fold_left visitAnchor selections (pdfLinks, lg))
    = lg ++ ((λ _, LogErrorDecodingHref)
               <$> List.filter undecodable
                     (omap (λ selection, Attr selection "href") selections)).
Proof.
  induction selections as [|sel selections IH]; intros pdfLinks lg.
  - simpl. by rewrite app_nil_r.
  - cbn [fold_left omap list_omap]. unfold visitAnchor at 2.
    destruct (Attr sel "href") as [href|]; [|apply IH].
    cbn [List.filter].
    assert (Hu : undecodable href
                 = match GoUrl.QueryUnescape href with
                   | Some _ => false
                   | None => true
                   end) by reflexivity.
    destruct (GoUrl.QueryUnescape href) as [decodedHref|]; rewrite Hu.
    + destruct (GoStrings.HasSuffix _ _); apply IH.
    + rewrite IH, <- app_assoc. done.
Qed.

(** X30.  Extraction logs one line for each anchor whose href cannot be
    percent-decoded, and nothing else, when the document parses. *)
Theorem parseHTML_logs_undecodable_hrefs (htmlContent : string) (doc : Document) :
  NewDocumentFromReader htmlContent = Some doc →
  snd (parseHTML_logged htmlContent)
  = (λ _, LogErrorDecodingHref) <$> List.filter undecodable (anchorHrefs doc).
Proof.
  intros Hdoc. unfold parseHTML_logged. rewrite Hdoc.
  apply (fold_visitAnchor_log (Find doc "a[href]") [] []).
Qed.

End Rejections.

Lemma parseHTML_logs_undecodable_hrefs_witness :
  snd (@parseHTML_logged (fixedDocument [[("href", "/a%zz.pdf")]; [("href", "/b.pdf")]])
                         "<a>")
  = [LogErrorDecodingHref].
Proof.
  exact (@parseHTML_logs_undecodable_hrefs
           (fixedDocument [[("href", "/a%zz.pdf")]; [("href", "/b.pdf")]])
           "<a>" _ eq_refl).
Defined.
